(** * Bayesian calibration notebook (baycal_elm-latest.ipynb)

    A shallow embedding of the notebook's own functions: the log-prior,
    log-likelihood and log-posterior, the Gelman-Rubin diagnostic, the
    burn-in slicing, the convergence check loop and the propagation of
    posterior draws through the surrogate.

    Numbers.  Every number of the notebook is a NumPy [float64].  Two
    readings are used.  In [float64] below a finite value is an exact real
    (rounding, overflow and the sign of zero are left out) and the three
    special values [inf], [-inf] and [nan] follow the IEEE-754 rules that
    NumPy applies (a division by zero yields [inf] or [nan], it does not
    raise; every comparison with [nan] is false); it carries the
    statements about control flow, exceptions, call counts and special
    values.  In [Module IEEE] the diagnostic is read over binary64 values
    with correctly rounded operations; it carries the statements that
    depend on rounding. *)

From Stdlib Require Import Reals Lra Lia List ZArith Bool Arith.
From Stdlib Require Import SpecFloat.
Import ListNotations.

Open Scope R_scope.

(* ================================================================== *)
(** ** Real comparisons as booleans *)

Definition Rleb (x y : R) : bool := if Rle_dec x y then true else false.
Definition Rltb (x y : R) : bool := if Rlt_dec x y then true else false.
Definition Reqb (x y : R) : bool := if Req_dec_T x y then true else false.

(* ================================================================== *)
(** ** The float64 values and their arithmetic *)

Inductive float64 : Type :=
| Fin (x : R)
| PosInf
| NegInf
| NaN.

Definition isfinite (a : float64) : bool :=
  match a with Fin _ => true | _ => false end.

Definition isnan (a : float64) : bool :=
  match a with NaN => true | _ => false end.

Definition fneg (a : float64) : float64 :=
  match a with
  | Fin x => Fin (- x)
  | PosInf => NegInf
  | NegInf => PosInf
  | NaN => NaN
  end.

Definition fadd (a b : float64) : float64 :=
  match a, b with
  | NaN, _ | _, NaN => NaN
  | Fin x, Fin y => Fin (x + y)
  | PosInf, NegInf | NegInf, PosInf => NaN
  | PosInf, _ | _, PosInf => PosInf
  | NegInf, _ | _, NegInf => NegInf
  end.

Definition fsub (a b : float64) : float64 := fadd a (fneg b).

(** [inf_signed x] is the infinity carrying the sign of the finite [x];
    it is [nan] at zero (the case [0 * inf]). *)
Definition inf_signed (x : R) : float64 :=
  if Rltb 0 x then PosInf else if Rltb x 0 then NegInf else NaN.

Definition fmul (a b : float64) : float64 :=
  match a, b with
  | NaN, _ | _, NaN => NaN
  | Fin x, Fin y => Fin (x * y)
  | Fin x, PosInf | PosInf, Fin x => inf_signed x
  | Fin x, NegInf | NegInf, Fin x => fneg (inf_signed x)
  | PosInf, PosInf | NegInf, NegInf => PosInf
  | PosInf, NegInf | NegInf, PosInf => NegInf
  end.

(** NumPy division: [x / 0] is [inf], [-inf] or [nan] (a RuntimeWarning is
    emitted, nothing is raised). *)
Definition fdiv (a b : float64) : float64 :=
  match a, b with
  | NaN, _ | _, NaN => NaN
  | Fin x, Fin y => if Reqb y 0 then inf_signed x else Fin (x / y)
  | Fin _, PosInf | Fin _, NegInf => Fin 0
  | PosInf, Fin y => if Rltb y 0 then NegInf else PosInf
  | NegInf, Fin y => if Rltb y 0 then PosInf else NegInf
  | _, _ => NaN
  end.

(** [x ** 2]. *)
Definition fpow2 (a : float64) : float64 := fmul a a.

(** [np.sqrt]: [nan] below zero. *)
Definition fsqrt (a : float64) : float64 :=
  match a with
  | Fin x => if Rltb x 0 then NaN else Fin (sqrt x)
  | PosInf => PosInf
  | NegInf | NaN => NaN
  end.

Definition fle (a b : float64) : bool :=
  match a, b with
  | NaN, _ | _, NaN => false
  | Fin x, Fin y => Rleb x y
  | NegInf, _ | _, PosInf => true
  | _, _ => false
  end.

Definition flt (a b : float64) : bool :=
  match a, b with
  | NaN, _ | _, NaN => false
  | Fin x, Fin y => Rltb x y
  | PosInf, _ | _, NegInf => false
  | _, _ => true
  end.

(** [a >= b] and [a > b] are the mirrored comparisons. *)
Definition fge (a b : float64) : bool := fle b a.
Definition fgt (a b : float64) : bool := flt b a.

(** A Python [int] used in float arithmetic. *)
Definition of_int (z : Z) : float64 := Fin (IZR z).

Arguments fneg : simpl nomatch.
Arguments fadd : simpl nomatch.
Arguments fmul : simpl nomatch.
Arguments fdiv : simpl nomatch.
Arguments fsqrt : simpl nomatch.
Arguments fle : simpl nomatch.
Arguments flt : simpl nomatch.

(* ================================================================== *)
(** ** Exceptions, the notebook's globals and its effects *)

Inductive exn : Type :=
| ZeroDivisionError
| AssertionError
| ValueError
| IndexError
| PredictorError (code : nat).   (* whatever [gpr_model.predict] raises *)

Inductive result (A : Type) : Type :=
| Ok (a : A)
| Raise (e : exn).
Arguments Ok {A} a.
Arguments Raise {A} e.

(** A parameter vector [theta]. *)
Definition vector := list float64.

(** The module-level names the functions read when they are called.
    [gpr_model] is the loaded surrogate ([gpr_model.predict] on one row,
    which may raise).  Two NumPy routines are taken as given:
    [np_random_choice pop size replace] is the outcome of
    [np.random.choice(pop, size, replace=replace)], and [np_percentile a q]
    is [np.percentile(a, q)] on a sample [a] that is not empty. *)
Record globals : Type := {
  gpr_model : vector -> result float64;
  desired_nrmse : float64;
  desired_std : float64;
  np_random_choice : nat -> nat -> bool -> result (list nat);
  np_percentile : list float64 -> R -> float64
}.

(** What the notebook prints or displays. *)
Inductive event : Type :=
| PrintRhat (parameter : nat) (R_hat : float64)
| PrintWarning (parameter : nat) (R_hat : float64)
| DisplayStopping
| PrintMeanNrmse (mean : float64)
| PrintRange (lower upper : float64).

(** The observable effects: the rows handed to the surrogate, in call
    order, and the printed output. *)
Record world : Type := {
  predict_calls : list vector;
  output : list event
}.

Definition empty_world : world := {| predict_calls := []; output := [] |}.

(** Computations that may raise and that act on the world. *)
Definition M (A : Type) : Type := world -> result A * world.

Definition ret {A} (a : A) : M A := fun w => (Ok a, w).

Definition raise {A} (e : exn) : M A := fun w => (Raise e, w).

Definition bind {A B} (m : M A) (k : A -> M B) : M B :=
  fun w =>
    match m w with
    | (Ok a, w') => k a w'
    | (Raise e, w') => (Raise e, w')
    end.

Notation "x <- m ;; k" := (bind m (fun x => k))
  (at level 61, m at next level, right associativity).
Notation "m ;;; k" := (bind m (fun _ => k))
  (at level 61, right associativity).

(** [gpr_model.predict([theta])[0]]: one invocation, recorded. *)
Definition predict (G : globals) (theta : vector) : M float64 :=
  fun w =>
    (gpr_model G theta,
     {| predict_calls := predict_calls w ++ [theta]; output := output w |}).

Definition print (e : event) : M unit :=
  fun w =>
    (Ok tt, {| predict_calls := predict_calls w; output := output w ++ [e] |}).

(** Lifting a pure result. *)
Definition lift {A} (r : result A) : M A := fun w => (r, w).

(* ================================================================== *)
(** ** Cells 4-6: prior, likelihood, posterior *)

(** [np.all(theta >= 0) and np.all(theta <= 1)]. *)
Definition lnprior (theta : vector) : float64 :=
  if forallb (fun t => fge t (Fin 0)) theta
     && forallb (fun t => fle t (Fin 1)) theta
  then Fin 0
  else NegInf.

Definition lnlike (G : globals) (theta : vector) : M float64 :=
  predicted_nrmse <- predict G theta ;;
  ret (fmul (Fin (- (1 / 2)))
            (fpow2 (fdiv (fsub predicted_nrmse (desired_nrmse G))
                         (desired_std G)))).

Definition lnprob (G : globals) (theta : vector) : M float64 :=
  let lp := lnprior theta in
  if negb (isfinite lp) then ret NegInf
  else (ll <- lnlike G theta ;; ret (fadd lp ll)).

(* ================================================================== *)
(** ** NumPy reductions used by the notebook *)

(** [np.sum] of a one-dimensional slice. *)
Definition fsum (l : list float64) : float64 := fold_left fadd l (Fin 0).

(** [np.mean]: the sum divided by the number of items (an empty slice
    gives [0/0 = nan], with a warning). *)
Definition np_mean (l : list float64) : float64 :=
  fdiv (fsum l) (of_int (Z.of_nat (length l))).

(** [np.var(..., ddof=1)]: squared deviations from the mean, summed and
    divided by [max(n - ddof, 0)]. *)
Definition np_var_ddof1 (l : list float64) : float64 :=
  let arrmean := np_mean l in
  fdiv (fsum (map (fun v => fpow2 (fsub v arrmean)) l))
       (of_int (Z.max (Z.of_nat (length l) - 1) 0)).

(** A three-dimensional array: its shape and its items. *)
Record ndarray3 : Type := {
  n_chains : nat;
  n_steps : nat;
  n_parameters : nat;
  item : nat -> nat -> nat -> float64
}.

(** [chains[c, :, p]]. *)
Definition steps_of (chains : ndarray3) (c p : nat) : list float64 :=
  map (fun s => item chains c s p) (seq 0 (n_steps chains)).

(** [chains[:, :, p]] in row-major order. *)
Definition all_steps_of (chains : ndarray3) (p : nat) : list float64 :=
  flat_map (fun c => steps_of chains c p) (seq 0 (n_chains chains)).

(* ================================================================== *)
(** ** Cell 7: the Gelman-Rubin diagnostic *)

(** [np.mean(chains, axis=1)]. *)
Definition chain_means (chains : ndarray3) (c p : nat) : float64 :=
  np_mean (steps_of chains c p).

(** [np.mean(chains, axis=(0, 1))]. *)
Definition overall_mean (chains : ndarray3) (p : nat) : float64 :=
  np_mean (all_steps_of chains p).

(** [np.sum((chain_means - overall_mean)**2, axis=0) / (n_chains - 1)]. *)
Definition B_over_n (chains : ndarray3) (p : nat) : float64 :=
  fdiv (fsum (map (fun c => fpow2 (fsub (chain_means chains c p)
                                         (overall_mean chains p)))
                  (seq 0 (n_chains chains))))
       (of_int (Z.of_nat (n_chains chains) - 1)).

(** [np.mean(np.var(chains, axis=1, ddof=1), axis=0)]. *)
Definition W (chains : ndarray3) (p : nat) : float64 :=
  np_mean (map (fun c => np_var_ddof1 (steps_of chains c p))
               (seq 0 (n_chains chains))).

(** [((n_steps - 1) / n_steps) * W + B_over_n]; the quotient of the two
    Python integers is taken first. *)
Definition var_hat_plus (chains : ndarray3) (p : nat) : float64 :=
  fadd (fmul (Fin (IZR (Z.of_nat (n_steps chains) - 1)
                   / IZR (Z.of_nat (n_steps chains))))
             (W chains p))
       (B_over_n chains p).

(** The quotient [(n_steps - 1) / n_steps] of Python integers raises
    ZeroDivisionError on an array without steps; every other division is
    NumPy's and raises nothing. *)
Definition gelman_rubin (chains : ndarray3) : result (list float64) :=
  if (n_steps chains =? 0)%nat then Raise ZeroDivisionError
  else Ok (map (fun p => fsqrt (fdiv (var_hat_plus chains p) (W chains p)))
               (seq 0 (n_parameters chains))).

(* ================================================================== *)
(** ** Cell 11: burn-in slicing and the convergence check *)

(** [int(nsteps // 2)]. *)
Definition burnin (nsteps : nat) : nat := (nsteps / 2)%nat.

(** [chain[:, from:, :]]. *)
Definition slice_steps (from : nat) (chain : ndarray3) : ndarray3 :=
  {| n_chains := n_chains chain;
     n_steps := (n_steps chain - from)%nat;
     n_parameters := n_parameters chain;
     item := fun c s p => item chain c (from + s)%nat p |}.

Definition chains_burned (nsteps : nat) (chain : ndarray3) : ndarray3 :=
  slice_steps (burnin nsteps) chain.

(** The threshold [1.1]. *)
Definition R_hat_threshold : float64 := Fin (11 / 10).

(** [for i, R_hat in enumerate(R_hat_values): ...], entered at index [i]. *)
Fixpoint check_R_hat (i : nat) (R_hat_values : list float64) : M unit :=
  match R_hat_values with
  | [] => ret tt
  | R_hat :: rest =>
      print (PrintRhat (i + 1) R_hat) ;;;
      (if fgt R_hat R_hat_threshold
       then print (PrintWarning (i + 1) R_hat) ;;;
            print DisplayStopping ;;;
            raise AssertionError
       else ret tt) ;;;
      check_R_hat (S i) rest
  end.

(* ================================================================== *)
(** ** Cells 13, 15 and 16: the pool of draws, summaries, propagation *)

(** [chains.ravel()]: all items, last axis fastest. *)
Definition ravel (chains : ndarray3) : list float64 :=
  flat_map (fun c =>
    flat_map (fun s =>
      map (fun p => item chains c s p) (seq 0 (n_parameters chains)))
      (seq 0 (n_steps chains)))
    (seq 0 (n_chains chains)).

Fixpoint chunks {A} (fuel k : nat) (l : list A) : list (list A) :=
  match fuel with
  | O => []
  | S fuel' =>
      match l with
      | [] => []
      | _ => firstn k l :: chunks fuel' k (skipn k l)
      end
  end.

(** [chains.reshape((-1, k))]: rows of [k] items; ValueError when the size
    is not a multiple of [k]. *)
Definition reshape_rows (k : nat) (chains : ndarray3) : result (list vector) :=
  let flat := ravel chains in
  if (length flat mod k =? 0)%nat
  then Ok (chunks (length flat) k flat)
  else Raise ValueError.

(** [samples[:, i]]. *)
Definition column (i : nat) (samples : list vector) : list float64 :=
  map (fun row => nth i row NaN) samples.

(** [samples[idx]]: the rows at the drawn indices, in the order drawn; an
    index outside the pool raises IndexError. *)
Fixpoint take_rows (samples : list vector) (idx : list nat)
  : result (list vector) :=
  match idx with
  | [] => Ok []
  | i :: idx' =>
      match nth_error samples i, take_rows samples idx' with
      | Some row, Ok rows => Ok (row :: rows)
      | None, _ => Raise IndexError
      | _, Raise e => Raise e
      end
  end.

(** The loop [for sample in selected_samples: ... nrmse_values.append(...)]. *)
Fixpoint predict_each (G : globals) (selected_samples : list vector)
  : M (list float64) :=
  match selected_samples with
  | [] => ret []
  | sample :: rest =>
      nrmse <- predict G sample ;;
      nrmse_values <- predict_each G rest ;;
      ret (nrmse :: nrmse_values)
  end.

(** Cell 15, the numbers it computes: for each of the five parameters the
    2.5th and 97.5th percentiles of [samples[:, i]]. *)
Definition marginal_intervals (G : globals) (samples : list vector)
  : list (float64 * float64) :=
  map (fun i => (np_percentile G (column i samples) (25 / 10),
                 np_percentile G (column i samples) (975 / 10)))
      (seq 0 5).

(** [np.percentile(a, q)] on the list of predictions: IndexError on an
    empty list, the percentile otherwise. *)
Definition percentile_of (G : globals) (a : list float64) (q : R)
  : result float64 :=
  match a with
  | [] => Raise IndexError
  | _ :: _ => Ok (np_percentile G a q)
  end.

(** Cell 16: draw [n_samples] rows of the pool without replacement, run
    the surrogate on each, and report the mean and the percentile range of
    the predictions.  The mean of no prediction is [nan]; the percentile of
    no prediction raises, before anything is printed. *)
Definition propagate (G : globals) (n_samples : nat) (samples : list vector)
  : M (float64 * float64 * float64) :=
  idx <- lift (np_random_choice G (length samples) n_samples false) ;;
  selected_samples <- lift (take_rows samples idx) ;;
  nrmse_values <- predict_each G selected_samples ;;
  let mean_nrmse := np_mean nrmse_values in
  lower_bound <- lift (percentile_of G nrmse_values (25 / 10)) ;;
  upper_bound <- lift (percentile_of G nrmse_values (975 / 10)) ;;
  print (PrintMeanNrmse mean_nrmse) ;;;
  print (PrintRange lower_bound upper_bound) ;;;
  ret (mean_nrmse, lower_bound, upper_bound).

(** The values the notebook assigns. *)
Definition notebook_ndim : nat := 5.
Definition notebook_nwalkers : nat := 50.
Definition notebook_nsteps : nat := (20 * 1000)%nat.   (* 20000 *)
Definition notebook_n_samples : nat := 50.
Definition notebook_desired_nrmse : float64 := Fin (4 / 10).
Definition notebook_desired_std : float64 := Fin (2 / 100).

(** Everything the notebook does once [sampler.run_mcmc] has filled
    [sampler.chain]: burn-in slicing, the diagnostic, the check loop, and
    (when no exception stopped the run) the pool, the marginal intervals
    and the propagation.  Saving and re-loading [chains_burned] (cells 12
    and 13) returns the same array. *)
Definition after_sampling (G : globals) (nsteps n_samples : nat)
  (chain : ndarray3)
  : M (list (float64 * float64) * (float64 * float64 * float64)) :=
  let burned := chains_burned nsteps chain in
  R_hat_values <- lift (gelman_rubin burned) ;;
  check_R_hat 0 R_hat_values ;;;
  samples <- lift (reshape_rows 5 burned) ;;
  let intervals := marginal_intervals G samples in
  propagated <- propagate G n_samples samples ;;
  ret (intervals, propagated).

(** The run of the notebook: 20000 steps, 50 propagated draws. *)
Definition notebook_after_sampling (G : globals) (chain : ndarray3)
  : M (list (float64 * float64) * (float64 * float64 * float64)) :=
  after_sampling G notebook_nsteps notebook_n_samples chain.

(* ================================================================== *)
(** ** The formulas of the diagnostic over the reals

    Used to evaluate the diagnostic on example arrays whose values are
    added and divided without rounding. *)

(** An array of finite values, given by a real-valued function. *)
Definition ndarray_of_reals (m n d : nat) (x : nat -> nat -> nat -> R)
  : ndarray3 :=
  {| n_chains := m; n_steps := n; n_parameters := d;
     item := fun c s p => Fin (x c s p) |}.

Definition Rsum (l : list R) : R := fold_left Rplus l 0.

(** [sum_below k f] is [f 0 + ... + f (k - 1)]. *)
Definition sum_below (k : nat) (f : nat -> R) : R := Rsum (map f (seq 0 k)).

Module Spec.
Section PerDimension.

(** [m] chains of [n] steps; [x c s] is the value of the dimension under
    study at step [s] of chain [c]. *)
Variables (m n : nat) (x : nat -> nat -> R).

(** mean over steps of chain [c] *)
Definition chain_means (c : nat) : R := sum_below n (x c) / INR n.

(** mean of [chain_means] over chains *)
Definition overall_mean : R := sum_below m chain_means / INR m.

(** sum_c (chain_means[c] - overall_mean)^2 / (n_chains - 1) *)
Definition B_over_n : R :=
  sum_below m (fun c => (chain_means c - overall_mean) ^ 2) / (INR m - 1).

(** sample variance over steps of chain [c], denominator n_steps - 1 *)
Definition sample_variance (c : nat) : R :=
  sum_below n (fun s => (x c s - chain_means c) ^ 2) / (INR n - 1).

(** mean over chains of the sample variances *)
Definition W : R := sum_below m sample_variance / INR m.

Definition var_hat_plus : R := ((INR n - 1) / INR n) * W + B_over_n.

(** sqrt(var_hat_plus / W), with NumPy's division and square root. *)
Definition R_hat : float64 := fsqrt (fdiv (Fin var_hat_plus) (Fin W)).

End PerDimension.
End Spec.


(* ================================================================== *)
(** ** Predicates used in the statements *)

(** Every component of [theta] is a finite number of [[0, 1]]. *)
Definition in_bounds (theta : vector) : Prop :=
  Forall (fun t => exists x, t = Fin x /\ 0 <= x <= 1) theta.

(** Some component of [theta] is strictly below 0 or strictly above 1. *)
Definition out_of_bounds (theta : vector) : Prop :=
  Exists (fun t => flt t (Fin 0) = true \/ fgt t (Fin 1) = true) theta.

(** What [np.random.choice(pop, size, replace=False)] promises: [size]
    pairwise distinct indices below [pop], and ValueError when [size]
    exceeds [pop]. *)
Definition choice_without_replacement
  (choice : nat -> nat -> bool -> result (list nat)) : Prop :=
  forall pop size : nat,
    ((size <= pop)%nat ->
       exists idx, choice pop size false = Ok idx /\
                   length idx = size /\ NoDup idx /\
                   Forall (fun i => (i < pop)%nat) idx)
    /\ ((pop < size)%nat -> choice pop size false = Raise ValueError).

(** [k] is the floor of the real [r]. *)
Definition is_floor (k : nat) (r : R) : Prop := INR k <= r < INR k + 1.

(** The default burn-in fraction of the specification; the notebook
    discards the first half of the steps. *)
Definition burn_in_fraction : R := 1 / 2.

(** The lines printed for the values [pre] met from index [i] on. *)
Fixpoint printed_values (i : nat) (pre : list float64) : list event :=
  match pre with
  | [] => []
  | R_hat :: rest => PrintRhat (i + 1) R_hat :: printed_values (S i) rest
  end.

(* ================================================================== *)
(** ** Stand-ins for the external collaborators

    Concrete globals on which the statements below are exercised: a
    surrogate given as a function, a draw that returns the first [size]
    indices, and the default (linear) percentile. *)

Definition first_indices (pop size : nat) (replace : bool)
  : result (list nat) :=
  if (size <=? pop)%nat then Ok (seq 0 size)
  else if replace && negb (pop =? 0)%nat then Ok (repeat O size)
  else Raise ValueError.

Fixpoint insert_sorted (v : float64) (l : list float64) : list float64 :=
  match l with
  | [] => [v]
  | h :: t => if fle v h then v :: l else h :: insert_sorted v t
  end.

Definition sort_values (l : list float64) : list float64 :=
  fold_right insert_sorted [] l.

Definition percentile_linear (a : list float64) (q : R) : float64 :=
  if existsb isnan a then NaN
  else match a with
       | [] => NaN
       | _ =>
           let sorted := sort_values a in
           let virtual_index := (INR (length a) - 1) * q / 100 in
           let lo := Z.to_nat (Int_part virtual_index) in
           let hi := Nat.min (lo + 1) (length a - 1) in
           let gamma := frac_part virtual_index in
           fadd (nth lo sorted NaN)
                (fmul (fsub (nth hi sorted NaN) (nth lo sorted NaN))
                      (Fin gamma))
       end.

Definition stub_globals (model : vector -> result float64) : globals :=
  {| gpr_model := model;
     desired_nrmse := notebook_desired_nrmse;
     desired_std := notebook_desired_std;
     np_random_choice := first_indices;
     np_percentile := percentile_linear |}.

(** The sum of the components, as in [predict(theta) = theta[0] + theta[1]]. *)
Definition sum_model (theta : vector) : result float64 := Ok (fsum theta).

Definition nan_model (theta : vector) : result float64 := Ok NaN.

Definition failing_model (theta : vector) : result float64 :=
  Raise (PredictorError 0).

Definition half : float64 := Fin (1 / 2).

(** The number of surrogate invocations made by [m] started in [w]. *)
Definition invocations {A} (m : M A) (w : world) : nat :=
  (length (predict_calls (snd (m w))) - length (predict_calls w))%nat.

(** The posterior rejects a candidate whose prediction fails or is not
    finite: the reading of the failure clause of the specification. *)
Definition rejects_bad_prediction (G : globals) : Prop :=
  forall theta w,
    in_bounds theta ->
    (match gpr_model G theta with
     | Ok v => isfinite v = false
     | Raise _ => True
     end) ->
    fst (lnprob G theta w) = Ok NegInf.

(** A value above the threshold. *)
Definition exceeds (R_hat : float64) : bool := fgt R_hat R_hat_threshold.


(** A run of four steps of two walkers, one parameter: after burn-in the
    first walker visits 0 and 1, the second 2 and 3. *)
Definition drifting_chain : ndarray3 :=
  ndarray_of_reals 2 4 1 (fun c s p => 2 * INR c + INR s - 2).

(** A pool of three draws. *)
Definition small_pool : list vector := [[half]; [Fin 0]; [Fin 1]].

(** Globals with a zero tolerance. *)
Definition zero_tolerance_globals : globals :=
  {| gpr_model := sum_model;
     desired_nrmse := notebook_desired_nrmse;
     desired_std := Fin 0;
     np_random_choice := first_indices;
     np_percentile := percentile_linear |}.

(** The walker positions of an array, chain by chain and step by step:
    the rows that [reshape((-1, ndim))] is meant to produce. *)
Definition positions (chains : ndarray3) : list vector :=
  flat_map (fun c =>
    map (fun s => map (fun p => item chains c s p)
                      (seq 0 (n_parameters chains)))
        (seq 0 (n_steps chains)))
    (seq 0 (n_chains chains)).

(** A surrogate that accepts rows of one feature only, and a pool with a
    row of two features. *)
Definition one_feature_model (theta : vector) : result float64 :=
  if (length theta =? 1)%nat then Ok (fsum theta)
  else Raise (PredictorError 1).

Definition mixed_pool : list vector := [[half]; [half; half]; [Fin 1]].



(** The propagation as the specification words it: whenever [n_samples]
    does not exceed the pool size, the cell reports the mean and the two
    percentiles of the predictions of [n_samples] distinct pool rows, each
    predicted once. *)
Definition propagation_as_specified (G : globals) (n_samples : nat)
  (samples : list vector) : Prop :=
  forall w,
    (n_samples <= length samples)%nat ->
    exists idx selected nrmse_values,
      NoDup idx /\ length idx = n_samples /\
      Forall2 (fun i theta => nth_error samples i = Some theta)
              idx selected /\
      Forall2 (fun theta v => gpr_model G theta = Ok v)
              selected nrmse_values /\
      predict_calls (snd (propagate G n_samples samples w))
      = predict_calls w ++ selected /\
      fst (propagate G n_samples samples w)
      = Ok (np_mean nrmse_values,
            np_percentile G nrmse_values (25 / 10),
            np_percentile G nrmse_values (975 / 10)).

(* ================================================================== *)
(** ** Cell 7 in IEEE-754 binary64 arithmetic

    Where a statement depends on rounding, the diagnostic is read again
    over binary64 values: [spec_float] with the operations of the Standard
    Library's specification of IEEE-754 (round to nearest, ties to even,
    overflow to infinity, gradual underflow, signed zeros).  The order in
    which [np.sum] adds the items of a slice is NumPy's own and is a
    parameter [np_sum] of the definitions; [seq_sum] adds in index order,
    as NumPy does on a slice of fewer than eight items. *)

Module IEEE.

Definition prec : Z := 53.
Definition emax : Z := 1024.

Definition add : spec_float -> spec_float -> spec_float := SFadd prec emax.
Definition sub : spec_float -> spec_float -> spec_float := SFsub prec emax.
Definition mul : spec_float -> spec_float -> spec_float := SFmul prec emax.
Definition div : spec_float -> spec_float -> spec_float := SFdiv prec emax.
Definition sqrt : spec_float -> spec_float := SFsqrt prec emax.

(** A Python [int] used in float arithmetic (exact below [2^53]). *)
Definition of_int (z : Z) : spec_float := binary_normalize prec emax z 0 false.

(** The float nearest to the fraction [num / den], as a decimal literal
    such as [0.1] denotes it. *)
Definition literal (num den : Z) : spec_float := div (of_int num) (of_int den).

(** [x ** 2]. *)
Definition pow2 (a : spec_float) : spec_float := mul a a.

(** [x] is [nan] or carries the sign [s]. *)
Definition signed (s : bool) (x : spec_float) : bool :=
  match x with
  | S754_nan => true
  | S754_zero s' | S754_infinity s' | S754_finite s' _ _ => Bool.eqb s s'
  end.

(** [x] is [nan], a zero, a positive number or [+inf]: it is not below
    zero. *)
Definition not_negative (x : spec_float) : bool :=
  match x with
  | S754_nan | S754_zero _ => true
  | S754_infinity s | S754_finite s _ _ => negb s
  end.

Definition is_zero (x : spec_float) : bool :=
  match x with S754_zero _ => true | _ => false end.

(** [x] is a zero or a finite number. *)
Definition is_finite (x : spec_float) : bool :=
  match x with S754_zero _ | S754_finite _ _ _ => true | _ => false end.

(** [x] is a positive number or [+inf]. *)
Definition is_positive (x : spec_float) : bool :=
  match x with
  | S754_infinity s | S754_finite s _ _ => negb s
  | _ => false
  end.

(** Addition in index order, from [0.0]. *)
Definition seq_sum (l : list spec_float) : spec_float :=
  fold_left add l (S754_zero false).

Record ndarray3 : Type := {
  n_chains : nat;
  n_steps : nat;
  n_parameters : nat;
  item : nat -> nat -> nat -> spec_float
}.

(** [chains[c, :, p]] and [chains[:, :, p]]. *)
Definition steps_of (chains : ndarray3) (c p : nat) : list spec_float :=
  map (fun s => item chains c s p) (seq 0 (n_steps chains)).

Definition all_steps_of (chains : ndarray3) (p : nat) : list spec_float :=
  flat_map (fun c => steps_of chains c p) (seq 0 (n_chains chains)).

(** [(n_steps - 1) / n_steps], the quotient of two Python integers. *)
Definition step_ratio (n : nat) : spec_float :=
  div (of_int (Z.of_nat n - 1)) (of_int (Z.of_nat n)).

(** [np.sqrt(var_hat_plus / W)] with
    [var_hat_plus = ratio * W + B_over_n]. *)
Definition R_hat_of (ratio w b : spec_float) : spec_float :=
  sqrt (div (add (mul ratio w) b) w).

Section Reductions.

Variable np_sum : list spec_float -> spec_float.

Definition np_mean (l : list spec_float) : spec_float :=
  div (np_sum l) (of_int (Z.of_nat (length l))).

Definition np_var_ddof1 (l : list spec_float) : spec_float :=
  let arrmean := np_mean l in
  div (np_sum (map (fun v => pow2 (sub v arrmean)) l))
      (of_int (Z.max (Z.of_nat (length l) - 1) 0)).

(** [np.mean(chains, axis=1)]. *)
Definition chain_means (chains : ndarray3) (c p : nat) : spec_float :=
  np_mean (steps_of chains c p).

(** [np.mean(chains, axis=(0, 1))]. *)
Definition overall_mean (chains : ndarray3) (p : nat) : spec_float :=
  np_mean (all_steps_of chains p).

(** [np.sum((chain_means - overall)**2, axis=0) / (n_chains - 1)] for a
    given overall mean. *)
Definition between (overall : spec_float) (chains : ndarray3) (p : nat)
  : spec_float :=
  div (np_sum (map (fun c => pow2 (sub (chain_means chains c p) overall))
                   (seq 0 (n_chains chains))))
      (of_int (Z.of_nat (n_chains chains) - 1)).

Definition B_over_n (chains : ndarray3) (p : nat) : spec_float :=
  between (overall_mean chains p) chains p.

(** [np.mean(np.var(chains, axis=1, ddof=1), axis=0)]. *)
Definition W (chains : ndarray3) (p : nat) : spec_float :=
  np_mean (map (fun c => np_var_ddof1 (steps_of chains c p))
               (seq 0 (n_chains chains))).

Definition gelman_rubin (chains : ndarray3) : result (list spec_float) :=
  if (n_steps chains =? 0)%nat then Raise ZeroDivisionError
  else Ok (map (fun p => R_hat_of (step_ratio (n_steps chains))
                                  (W chains p) (B_over_n chains p))
               (seq 0 (n_parameters chains))).

(** The diagnostic as the specification words it: [overall_mean] is the
    mean of the chain means. *)
Definition overall_mean_as_specified (chains : ndarray3) (p : nat)
  : spec_float :=
  np_mean (map (fun c => chain_means chains c p) (seq 0 (n_chains chains))).

Definition gelman_rubin_as_specified (chains : ndarray3)
  : result (list spec_float) :=
  if (n_steps chains =? 0)%nat then Raise ZeroDivisionError
  else Ok (map (fun p =>
                  R_hat_of (step_ratio (n_steps chains)) (W chains p)
                           (between (overall_mean_as_specified chains p)
                                    chains p))
               (seq 0 (n_parameters chains))).

(** The diagnostic signals an error when the within-chain variance of some
    dimension is zero: the reading of the contract of the specification. *)
Definition signals_error_when_W_zero (chains : ndarray3) : Prop :=
  (exists p, (p < n_parameters chains)%nat /\ is_zero (W chains p) = true) ->
  exists e, gelman_rubin chains = Raise e.


End Reductions.

(** Arrays of one parameter: [m] chains of [n] steps holding [v]
    everywhere; chains that all follow the list [l]; chains frozen at their
    own index. *)
Definition constant_chains (m n : nat) (v : spec_float) : ndarray3 :=
  {| n_chains := m; n_steps := n; n_parameters := 1;
     item := fun c s p => v |}.


Definition frozen_apart (m n : nat) : ndarray3 :=
  {| n_chains := m; n_steps := n; n_parameters := 1;
     item := fun c s p => of_int (Z.of_nat c) |}.

(** Two chains of three steps at 0.1; at 0.5; two chains [0.2, 0.3, 1.0];
    two chains [0, 1]; a chain at 0 beside a chain at 1. *)
Definition tenth_chains : ndarray3 := constant_chains 2 3 (literal 1 10).
Definition half_chains : ndarray3 := constant_chains 2 3 (literal 1 2).
Definition apart_chains : ndarray3 := frozen_apart 2 2.

End IEEE.

(* ================================================================== *)
(** * Properties *)

(** ** Comparisons *)

Lemma Rleb_true x y : Rleb x y = true <-> x <= y.
Proof. unfold Rleb; destruct (Rle_dec x y); split; intros; auto; discriminate || lra. Qed.

Lemma Rleb_false x y : Rleb x y = false <-> y < x.
Proof. unfold Rleb; destruct (Rle_dec x y); split; intros; auto; discriminate || lra. Qed.

Lemma Rltb_true x y : Rltb x y = true <-> x < y.
Proof. unfold Rltb; destruct (Rlt_dec x y); split; intros; auto; discriminate || lra. Qed.

Lemma Rltb_false x y : Rltb x y = false <-> y <= x.
Proof. unfold Rltb; destruct (Rlt_dec x y); split; intros; auto; discriminate || lra. Qed.

Lemma Reqb_true x y : Reqb x y = true <-> x = y.
Proof. unfold Reqb; destruct (Req_dec_T x y); split; intros; auto; discriminate || lra. Qed.

Lemma Reqb_false x y : Reqb x y = false <-> x <> y.
Proof. unfold Reqb; destruct (Req_dec_T x y); split; intros; auto; discriminate || lra. Qed.

(** ** float64 arithmetic *)

Lemma fadd_0_l a : fadd (Fin 0) a = a.
Proof. destruct a; simpl; try reflexivity. now rewrite Rplus_0_l. Qed.

Lemma inf_signed_pos x : 0 < x -> inf_signed x = PosInf.
Proof. intros H; unfold inf_signed. apply Rltb_true in H. now rewrite H. Qed.

Lemma inf_signed_neg x : x < 0 -> inf_signed x = NegInf.
Proof.
  intros H; unfold inf_signed.
  assert (Rltb 0 x = false) as -> by (apply Rltb_false; lra).
  apply Rltb_true in H. now rewrite H.
Qed.

Lemma inf_signed_zero : inf_signed 0 = NaN.
Proof.
  unfold inf_signed.
  assert (Rltb 0 0 = false) as -> by (apply Rltb_false; lra).
  reflexivity.
Qed.

Lemma fdiv_Fin x y : y <> 0 -> fdiv (Fin x) (Fin y) = Fin (x / y).
Proof. intros H; unfold fdiv. apply Reqb_false in H. now rewrite H. Qed.

Lemma fdiv_Fin_0 x : fdiv (Fin x) (Fin 0) = inf_signed x.
Proof.
  unfold fdiv. assert (Reqb 0 0 = true) as -> by now apply Reqb_true.
  reflexivity.
Qed.


Lemma fpow2_Fin x : fpow2 (Fin x) = Fin (x * x).
Proof. reflexivity. Qed.

(** ** Prior and posterior *)

Lemma lnprior_in_bounds theta : in_bounds theta -> lnprior theta = Fin 0.
Proof.
  intros H; unfold lnprior.
  assert (forallb (fun t => fge t (Fin 0)) theta = true) as ->.
  { apply forallb_forall; intros t Ht.
    unfold in_bounds in H; rewrite Forall_forall in H.
    destruct (H t Ht) as (x & -> & Hx); simpl. apply Rleb_true; lra. }
  assert (forallb (fun t => fle t (Fin 1)) theta = true) as ->.
  { apply forallb_forall; intros t Ht.
    unfold in_bounds in H; rewrite Forall_forall in H.
    destruct (H t Ht) as (x & -> & Hx); simpl. apply Rleb_true; lra. }
  reflexivity.
Qed.

Lemma flt_not_fle a b : flt a b = true -> fle b a = false.
Proof.
  destruct a, b; simpl; try discriminate; try reflexivity.
  intros H; apply Rltb_true in H. apply Rleb_false; lra.
Qed.

Lemma lnprior_out_of_bounds theta : out_of_bounds theta -> lnprior theta = NegInf.
Proof.
  intros H; unfold lnprior.
  apply Exists_exists in H; destruct H as (t & Ht & [Hlo | Hhi]).
  - assert (forallb (fun t => fge t (Fin 0)) theta = false) as ->; [|reflexivity].
    apply not_true_is_false; intros Hall.
    rewrite forallb_forall in Hall. specialize (Hall t Ht).
    unfold fge in Hall. rewrite (flt_not_fle _ _ Hlo) in Hall. discriminate.
  - assert (forallb (fun t => fle t (Fin 1)) theta = false) as ->;
      [|now rewrite andb_false_r].
    apply not_true_is_false; intros Hall.
    rewrite forallb_forall in Hall. specialize (Hall t Ht).
    unfold fgt in Hhi. rewrite (flt_not_fle _ _ Hhi) in Hall. discriminate.
Qed.

Lemma lnprior_cases theta : lnprior theta = Fin 0 \/ lnprior theta = NegInf.
Proof. unfold lnprior; destruct (_ && _); auto. Qed.

(** The posterior of an in-bounds candidate, whatever the surrogate does. *)
Lemma lnprob_in_bounds_run G theta w :
  in_bounds theta ->
  lnprob G theta w =
  (match gpr_model G theta with
   | Ok predicted =>
       Ok (fmul (Fin (- (1 / 2)))
                (fpow2 (fdiv (fsub predicted (desired_nrmse G))
                             (desired_std G))))
   | Raise e => Raise e
   end,
   {| predict_calls := predict_calls w ++ [theta]; output := output w |}).
Proof.
  intros H; unfold lnprob. rewrite (lnprior_in_bounds _ H); simpl.
  unfold bind, lnlike, bind, predict, ret.
  destruct (gpr_model G theta); [rewrite fadd_0_l|]; reflexivity.
Qed.

Lemma half_in_bounds k : in_bounds (repeat half k).
Proof.
  apply Forall_forall; intros t Ht. apply repeat_spec in Ht; subst t.
  exists (1 / 2); split; [reflexivity | lra].
Qed.

(** C1.  For a candidate with every component in [[0, 1]], the log-posterior
    is exactly [-0.5 * ((predict(theta) - desired_nrmse) / desired_std)^2],
    where [predict(theta)] is the value returned by the surrogate. *)
Theorem lnprob_in_bounds_value :
  forall (G : globals) (theta : vector) (w : world) (predicted : float64),
    in_bounds theta ->
    gpr_model G theta = Ok predicted ->
    fst (lnprob G theta w) =
    Ok (fmul (Fin (- (1 / 2)))
             (fpow2 (fdiv (fsub predicted (desired_nrmse G))
                          (desired_std G)))).
Proof.
  intros G theta w predicted Hin Hp.
  rewrite (lnprob_in_bounds_run G theta w Hin), Hp. reflexivity.
Qed.

Lemma lnprob_in_bounds_value_witness :
  fst (lnprob (stub_globals sum_model) [half; half] empty_world) =
  Ok (fmul (Fin (- (1 / 2)))
           (fpow2 (fdiv (fsub (fsum [half; half]) notebook_desired_nrmse)
                        notebook_desired_std))).
Proof.
  apply (lnprob_in_bounds_value (stub_globals sum_model) [half; half]
           empty_world (fsum [half; half])).
  - exact (half_in_bounds 2).
  - reflexivity.
Defined.

(** With [predict(theta) = theta[0] + theta[1]], target 0.4 and tolerance
    0.02, the candidate (0.5, 0.5) has log-posterior
    [-0.5 * ((1 - 0.4) / 0.02)^2 = -450], after one surrogate call. *)
Example lnprob_half_half :
  lnprob (stub_globals sum_model) [half; half] empty_world
  = (Ok (Fin (- 450)), {| predict_calls := [[half; half]]; output := [] |}).
Proof.
  rewrite (lnprob_in_bounds_run _ _ _ (half_in_bounds 2)).
  cbn [gpr_model stub_globals sum_model desired_nrmse desired_std
       predict_calls output empty_world app].
  unfold fsum, half, notebook_desired_nrmse, notebook_desired_std.
  cbn [repeat fold_left fadd fsub fneg]. rewrite fdiv_Fin by lra.
  cbn [fpow2 fmul]. do 3 f_equal. field.
Qed.

(** C2.  A candidate with a component below 0 or above 1 gets [-inf] and the
    surrogate is not invoked; no call of the posterior invokes it more than
    once. *)
Theorem lnprob_out_of_bounds_no_call :
  forall (G : globals) (theta : vector) (w : world),
    (out_of_bounds theta ->
       lnprob G theta w = (Ok NegInf, w) /\
       invocations (lnprob G theta) w = O) /\
    (invocations (lnprob G theta) w <= 1)%nat /\
    (exists extra, predict_calls (snd (lnprob G theta w))
                   = predict_calls w ++ extra /\ (length extra <= 1)%nat).
Proof.
  intros G theta w. split; [|split].
  - intros H. unfold invocations, lnprob.
    rewrite (lnprior_out_of_bounds _ H); simpl. split; [reflexivity | lia].
  - unfold invocations, lnprob.
    destruct (lnprior_cases theta) as [-> | ->]; simpl; [|lia].
    unfold bind, lnlike, bind, predict, ret.
    destruct (gpr_model G theta); simpl; rewrite length_app; simpl; lia.
  - unfold lnprob.
    destruct (lnprior_cases theta) as [-> | ->]; simpl.
    + exists [theta]. unfold bind, lnlike, bind, predict, ret.
      destruct (gpr_model G theta); simpl; auto.
    + exists []. rewrite app_nil_r. auto.
Qed.

Lemma lnprob_out_of_bounds_no_call_witness :
  lnprob (stub_globals sum_model) [half; Fin 2] empty_world
  = (Ok NegInf, empty_world) /\
  invocations (lnprob (stub_globals sum_model) [half; Fin 2]) empty_world = O.
Proof.
  apply (lnprob_out_of_bounds_no_call (stub_globals sum_model)
           [half; Fin 2] empty_world).
  apply Exists_cons_tl, Exists_cons_hd. right.
  simpl. apply Rltb_true. lra.
Defined.

(** A surrogate that returns [nan], or that raises, is not turned into a
    rejection: the posterior is [nan], respectively the exception leaves
    [lnprob]. *)
Lemma lnprob_bad_prediction_counterexample :
  ~ rejects_bad_prediction (stub_globals nan_model) /\
  ~ rejects_bad_prediction (stub_globals failing_model).
Proof.
  split; intros H.
  - specialize (H [half] empty_world (half_in_bounds 1) eq_refl).
    rewrite (lnprob_in_bounds_run _ _ _ (half_in_bounds 1)) in H.
    simpl in H. discriminate H.
  - specialize (H [half] empty_world (half_in_bounds 1) I).
    rewrite (lnprob_in_bounds_run _ _ _ (half_in_bounds 1)) in H.
    simpl in H. discriminate H.
Qed.

(** C6, as the code has it.  For an in-bounds candidate (finite target and
    tolerance): an infinite prediction gives the posterior [-inf]; a [nan]
    prediction gives the posterior [nan]; an exception raised by the
    surrogate leaves [lnprob] unchanged. *)
Theorem lnprob_bad_prediction :
  forall (G : globals) (theta : vector) (w : world) (target tolerance : R),
    in_bounds theta ->
    desired_nrmse G = Fin target ->
    desired_std G = Fin tolerance ->
    (gpr_model G theta = Ok PosInf \/ gpr_model G theta = Ok NegInf ->
       fst (lnprob G theta w) = Ok NegInf) /\
    (gpr_model G theta = Ok NaN -> fst (lnprob G theta w) = Ok NaN) /\
    (forall e, gpr_model G theta = Raise e ->
       fst (lnprob G theta w) = Raise e).
Proof.
  intros G theta w target tolerance Hin Ht Hs.
  rewrite (lnprob_in_bounds_run G theta w Hin), Ht, Hs.
  assert (Hneg : inf_signed (- (1 / 2)) = NegInf) by (apply inf_signed_neg; lra).
  split; [|split].
  - intros [-> | ->]; simpl; unfold fdiv;
      destruct (Rltb tolerance 0); simpl; unfold fmul; now rewrite Hneg.
  - intros ->. reflexivity.
  - intros e ->. reflexivity.
Qed.

Lemma lnprob_bad_prediction_witness :
  fst (lnprob (stub_globals nan_model) [half] empty_world) = Ok NaN.
Proof.
  apply (lnprob_bad_prediction (stub_globals nan_model) [half] empty_world
           (4 / 10) (2 / 100) (half_in_bounds 1) eq_refl eq_refl).
  reflexivity.
Defined.

(** ** Sums of reals and sums of finite float64 values *)

Lemma fold_Rplus_acc l a : fold_left Rplus l a = a + Rsum l.
Proof.
  unfold Rsum. revert a; induction l as [|v l IH]; intros a; simpl.
  - lra.
  - rewrite IH, (IH (0 + v)). lra.
Qed.

Lemma Rsum_nil : Rsum [] = 0.
Proof. reflexivity. Qed.

Lemma Rsum_cons v l : Rsum (v :: l) = v + Rsum l.
Proof. unfold Rsum at 1; simpl. rewrite fold_Rplus_acc. lra. Qed.

Lemma Rsum_app l1 l2 : Rsum (l1 ++ l2) = Rsum l1 + Rsum l2.
Proof.
  induction l1 as [|v l1 IH]; simpl.
  - rewrite Rsum_nil; lra.
  - rewrite !Rsum_cons, IH. lra.
Qed.

Lemma Rsum_map_div {A} (f : A -> R) (k : R) (l : list A) :
  Rsum (map (fun i => f i / k) l) = Rsum (map f l) / k.
Proof.
  induction l as [|v l IH]; simpl.
  - rewrite Rsum_nil; unfold Rdiv; lra.
  - rewrite !Rsum_cons, IH. unfold Rdiv; lra.
Qed.

Lemma Rsum_flat_map {A} (g : A -> list R) (l : list A) :
  Rsum (flat_map g l) = Rsum (map (fun c => Rsum (g c)) l).
Proof.
  induction l as [|v l IH]; simpl.
  - reflexivity.
  - rewrite Rsum_app, Rsum_cons, IH. reflexivity.
Qed.


Lemma Rsum_nonneg l : Forall (fun v => 0 <= v) l -> 0 <= Rsum l.
Proof.
  induction 1 as [|v l Hv _ IH].
  - rewrite Rsum_nil; lra.
  - rewrite Rsum_cons; lra.
Qed.

Lemma Rsum_squares_nonneg {A} (f : A -> R) (l : list A) :
  0 <= Rsum (map (fun i => f i ^ 2) l).
Proof.
  apply Rsum_nonneg, Forall_forall; intros v Hv.
  apply in_map_iff in Hv; destruct Hv as (i & <- & _). apply pow2_ge_0.
Qed.

Lemma fold_fadd_Fin l a :
  fold_left fadd (map Fin l) (Fin a) = Fin (fold_left Rplus l a).
Proof. revert a; induction l as [|v l IH]; intros a; simpl; auto. Qed.

Lemma fsum_Fin l : fsum (map Fin l) = Fin (Rsum l).
Proof. apply fold_fadd_Fin. Qed.

Lemma fsum_map_Fin {A} (f : A -> R) (l : list A) :
  fsum (map (fun i => Fin (f i)) l) = Fin (Rsum (map f l)).
Proof. rewrite <- fsum_Fin, map_map. reflexivity. Qed.

Lemma INR_pos_of_le k : (1 <= k)%nat -> 0 < INR k.
Proof. intros H. apply lt_0_INR. lia. Qed.


Lemma of_int_nat k : of_int (Z.of_nat k) = Fin (INR k).
Proof. unfold of_int. now rewrite <- INR_IZR_INZ. Qed.


Lemma np_mean_Fin {A} (f : A -> R) (l : list A) :
  (1 <= length l)%nat ->
  np_mean (map (fun i => Fin (f i)) l)
  = Fin (Rsum (map f l) / INR (length l)).
Proof.
  intros H. unfold np_mean.
  rewrite fsum_map_Fin, length_map, of_int_nat.
  apply fdiv_Fin. pose proof (INR_pos_of_le _ H). lra.
Qed.


(** ** The diagnostic on an array of finite values *)

Lemma np_mean_map_Fin l :
  (1 <= length l)%nat -> np_mean (map Fin l) = Fin (Rsum l / INR (length l)).
Proof.
  intros H. unfold np_mean. rewrite fsum_Fin, length_map, of_int_nat.
  apply fdiv_Fin. pose proof (INR_pos_of_le _ H). lra.
Qed.

Lemma flat_map_map_Fin {A} (g : A -> list R) (l : list A) :
  flat_map (fun c => map Fin (g c)) l = map Fin (flat_map g l).
Proof.
  induction l as [|v l IH]; simpl; [reflexivity|].
  now rewrite map_app, IH.
Qed.

Lemma length_flat_map_seq {A} (g : nat -> list A) (k n : nat) :
  (forall c, length (g c) = n) ->
  length (flat_map g (seq 0 k)) = (k * n)%nat.
Proof.
  intros H. generalize 0%nat as start.
  induction k as [|k IH]; intros start; simpl; [reflexivity|].
  now rewrite length_app, H, IH.
Qed.

Section RealChains.

Variables (m n d : nat) (x : nat -> nat -> nat -> R).

Lemma chain_means_exact c p :
  (1 <= n)%nat ->
  chain_means (ndarray_of_reals m n d x) c p = Fin (Spec.chain_means n (fun c s => x c s p) c).
Proof.
  intros Hn. unfold chain_means, steps_of; simpl.
  rewrite np_mean_Fin by (rewrite length_seq; exact Hn).
  now rewrite length_seq.
Qed.

Lemma overall_mean_exact p :
  (1 <= m)%nat -> (1 <= n)%nat ->
  overall_mean (ndarray_of_reals m n d x) p = Fin (Spec.overall_mean m n (fun c s => x c s p)).
Proof.
  intros Hm Hn. unfold overall_mean, all_steps_of, steps_of; simpl.
  assert (Hlen : length (flat_map (fun c => map (fun s => x c s p) (seq 0 n))
                           (seq 0 m)) = (m * n)%nat).
  { apply length_flat_map_seq. intros c. now rewrite length_map, length_seq. }
  rewrite (flat_map_ext _ (fun c => map Fin (map (fun s => x c s p) (seq 0 n))))
    by (intros c; now rewrite map_map).
  rewrite flat_map_map_Fin.
  rewrite np_mean_map_Fin by (rewrite Hlen; nia).
  f_equal. rewrite Hlen, mult_INR, Rsum_flat_map.
  unfold Spec.overall_mean, Spec.chain_means, sum_below.
  rewrite Rsum_map_div.
  pose proof (INR_pos_of_le _ Hm). pose proof (INR_pos_of_le _ Hn).
  field. lra.
Qed.






End RealChains.

(** ** Evaluating the exact-arithmetic formulas *)


Lemma nth_error_map_seq {A} (f : nat -> A) (d p : nat) :
  (p < d)%nat -> nth_error (map f (seq 0 d)) p = Some (f p).
Proof.
  intros H. rewrite nth_error_map.
  rewrite (nth_error_nth' _ 0%nat) by (rewrite length_seq; exact H).
  now rewrite seq_nth.
Qed.

(** ** Burn-in *)

Lemma burnin_is_floor nsteps :
  is_floor (burnin nsteps) (INR nsteps * burn_in_fraction).
Proof.
  unfold is_floor, burnin, burn_in_fraction.
  pose proof (Nat.div_mod_eq nsteps 2) as E.
  pose proof (Nat.mod_upper_bound nsteps 2 ltac:(lia)) as Hr.
  assert (HE : INR nsteps = 2 * INR (nsteps / 2) + INR (nsteps mod 2)).
  { replace 2 with (INR 2) by (simpl; lra).
    rewrite <- mult_INR, <- plus_INR. f_equal. exact E. }
  assert (0 <= INR (nsteps mod 2) <= 1).
  { split; [apply pos_INR|].
    assert (H2 : (nsteps mod 2 <= 1)%nat) by lia.
    apply le_INR in H2. change (INR 1) with 1 in H2. exact H2. }
  lra.
Qed.

(** C7.  With the half-way burn-in of the notebook ([nsteps // 2], the
    fraction 0.5), trimming discards exactly [floor(nsteps * 0.5)] steps
    from the start: the trimmed chain has the last
    [nsteps - floor(nsteps * 0.5)] steps of every walker, in their original
    order. *)
Theorem burn_in_trimming :
  forall (nsteps : nat) (chain : ndarray3),
    (0 < nsteps)%nat ->
    n_steps chain = nsteps ->
    is_floor (burnin nsteps) (INR nsteps * burn_in_fraction) /\
    n_chains (chains_burned nsteps chain) = n_chains chain /\
    n_parameters (chains_burned nsteps chain) = n_parameters chain /\
    n_steps (chains_burned nsteps chain) = (nsteps - burnin nsteps)%nat /\
    (burnin nsteps + n_steps (chains_burned nsteps chain) = nsteps)%nat /\
    (forall c s p,
        (s < nsteps - burnin nsteps)%nat ->
        item (chains_burned nsteps chain) c s p
        = item chain c (burnin nsteps + s)%nat p).
Proof.
  intros nsteps chain Hpos Hn.
  split; [apply burnin_is_floor|].
  unfold chains_burned, slice_steps; simpl. rewrite Hn.
  repeat split; try reflexivity.
  unfold burnin. pose proof (Nat.div_lt nsteps 2 Hpos ltac:(lia)). lia.
Qed.

Lemma burn_in_trimming_witness :
  is_floor (burnin 4) (INR 4 * burn_in_fraction) /\
  n_chains (chains_burned 4 drifting_chain) = n_chains drifting_chain /\
  n_parameters (chains_burned 4 drifting_chain)
  = n_parameters drifting_chain /\
  n_steps (chains_burned 4 drifting_chain) = (4 - burnin 4)%nat /\
  (burnin 4 + n_steps (chains_burned 4 drifting_chain) = 4)%nat /\
  (forall c s p,
      (s < 4 - burnin 4)%nat ->
      item (chains_burned 4 drifting_chain) c s p
      = item drifting_chain c (burnin 4 + s)%nat p).
Proof.
  apply (burn_in_trimming 4 drifting_chain); [lia | reflexivity].
Defined.

(** ** The convergence check *)

Lemma check_R_hat_cons i v l w :
  check_R_hat i (v :: l) w
  = if exceeds v
    then (Raise AssertionError,
          {| predict_calls := predict_calls w;
             output := output w ++ [PrintRhat (i + 1) v;
                                    PrintWarning (i + 1) v;
                                    DisplayStopping] |})
    else check_R_hat (S i) l
           {| predict_calls := predict_calls w;
              output := output w ++ [PrintRhat (i + 1) v] |}.
Proof.
  unfold exceeds. cbn [check_R_hat]. unfold bind, print, ret, raise.
  destruct (fgt v R_hat_threshold); simpl; rewrite <- ?app_assoc; reflexivity.
Qed.

Lemma check_R_hat_passes l : forall i w,
  Forall (fun v => exceeds v = false) l ->
  check_R_hat i l w
  = (Ok tt, {| predict_calls := predict_calls w;
               output := output w ++ printed_values i l |}).
Proof.
  induction l as [|v l IH]; intros i w H.
  - simpl. rewrite app_nil_r. now destruct w.
  - inversion H as [|? ? Hv Hl]; subst.
    rewrite check_R_hat_cons, Hv, (IH (S i) _ Hl); simpl.
    now rewrite <- app_assoc.
Qed.















(** ** Propagation *)

Lemma take_rows_in_range (samples : list vector) idx :
  Forall (fun i => (i < length samples)%nat) idx ->
  exists selected,
    take_rows samples idx = Ok selected /\
    Forall2 (fun i theta => nth_error samples i = Some theta) idx selected.
Proof.
  induction 1 as [|i idx Hi _ (selected & E & HF)]; simpl.
  - exists []. auto.
  - destruct (nth_error samples i) as [row|] eqn:Erow.
    + exists (row :: selected). rewrite E. auto.
    + apply nth_error_None in Erow. lia.
Qed.

Lemma selected_in_pool (samples : list vector) idx selected :
  Forall2 (fun i theta => nth_error samples i = Some theta) idx selected ->
  forall theta : vector, In theta selected -> In theta samples.
Proof.
  induction 1 as [|i row idx selected Hrow _ IH]; intros theta Hin.
  - inversion Hin.
  - destruct Hin as [<- | Hin]; [|now apply IH].
    now apply nth_error_In in Hrow.
Qed.

Lemma predict_each_run G selected : forall w,
  (forall theta, In theta selected -> exists v, gpr_model G theta = Ok v) ->
  exists nrmse_values,
    Forall2 (fun theta v => gpr_model G theta = Ok v) selected nrmse_values /\
    predict_each G selected w
    = (Ok nrmse_values,
       {| predict_calls := predict_calls w ++ selected;
          output := output w |}).
Proof.
  induction selected as [|theta rest IH]; intros w H.
  - exists []. split; [constructor|]. simpl. rewrite app_nil_r.
    now destruct w.
  - destruct (H theta (or_introl eq_refl)) as [v Hv].
    destruct (IH {| predict_calls := predict_calls w ++ [theta];
                    output := output w |}
                 (fun t Ht => H t (or_intror Ht))) as (vals & HF & E).
    exists (v :: vals). split; [now constructor|].
    cbn [predict_each]. unfold bind at 1, predict at 1. rewrite Hv.
    unfold bind at 1. rewrite E. unfold ret; simpl.
    now rewrite <- app_assoc.
Qed.

Lemma first_indices_without_replacement :
  choice_without_replacement first_indices.
Proof.
  intros pop size. unfold first_indices. split; intros H.
  - apply Nat.leb_le in H as Hb. rewrite Hb.
    exists (seq 0 size). repeat split.
    + apply length_seq.
    + apply seq_NoDup.
    + apply Forall_forall. intros i Hi. apply in_seq in Hi. lia.
  - assert (Hb : (size <=? pop)%nat = false) by (apply Nat.leb_gt; lia).
    rewrite Hb. reflexivity.
Qed.

Lemma propagate_nothing_drawn G samples w :
  np_random_choice G (length samples) 0 false = Ok [] ->
  propagate G 0 samples w = (Raise IndexError, w).
Proof.
  intros H. unfold propagate. unfold bind at 1, lift at 1. rewrite H.
  cbn [take_rows]. unfold bind at 1, lift at 1.
  cbn [predict_each]. unfold bind at 1, ret at 1.
  reflexivity.
Qed.

(** With [n_samples = 0] nothing is reported: the percentile of the empty
    list of predictions raises IndexError. *)
Lemma propagate_counterexample :
  ~ propagation_as_specified (stub_globals sum_model) 0 small_pool.
Proof.
  intros H.
  destruct (H empty_world ltac:(simpl; lia))
    as (idx & selected & vals & _ & _ & _ & _ & _ & Hfst).
  rewrite (propagate_nothing_drawn (stub_globals sum_model) small_pool
             empty_world eq_refl) in Hfst.
  discriminate Hfst.
Qed.

(** C9, as the code has it.  For [1 <= n_samples <= pool size] the
    propagation draws [n_samples] pairwise distinct pool indices
    ([replace=False]), runs the surrogate exactly once on each drawn
    vector, in the order drawn, and reports the mean and the 2.5th and
    97.5th percentiles of the predictions.  When [n_samples] exceeds the
    pool size the draw raises ValueError, and when [n_samples] is 0 the
    percentile of no prediction raises IndexError; in both cases the
    surrogate is not invoked and nothing is printed. *)
Theorem propagate_draws_and_reports :
  forall (G : globals) (n_samples : nat) (samples : list vector) (w : world),
    choice_without_replacement (np_random_choice G) ->
    ((1 <= n_samples)%nat -> (n_samples <= length samples)%nat ->
     (forall theta, In theta samples -> exists v, gpr_model G theta = Ok v) ->
     exists idx selected nrmse_values,
       NoDup idx /\ length idx = n_samples /\
       Forall (fun i => (i < length samples)%nat) idx /\
       Forall2 (fun i theta => nth_error samples i = Some theta)
               idx selected /\
       Forall2 (fun theta v => gpr_model G theta = Ok v)
               selected nrmse_values /\
       propagate G n_samples samples w
       = (Ok (np_mean nrmse_values,
              np_percentile G nrmse_values (25 / 10),
              np_percentile G nrmse_values (975 / 10)),
          {| predict_calls := predict_calls w ++ selected;
             output := output w
                       ++ [PrintMeanNrmse (np_mean nrmse_values);
                           PrintRange
                             (np_percentile G nrmse_values (25 / 10))
                             (np_percentile G nrmse_values (975 / 10))] |}))
    /\
    ((length samples < n_samples)%nat ->
     propagate G n_samples samples w = (Raise ValueError, w))
    /\
    (n_samples = 0%nat ->
     propagate G n_samples samples w = (Raise IndexError, w)).
Proof.
  intros G n_samples samples w Hchoice.
  destruct (Hchoice (length samples) n_samples) as [Hfit Hover].
  split; [|split].
  - intros Hpos Hle Hmodel.
    destruct (Hfit Hle) as (idx & Eidx & Hlen & Hnodup & Hrange).
    destruct (take_rows_in_range samples idx Hrange)
      as (selected & Esel & Hsel).
    destruct (predict_each_run G selected w) as (vals & Hvals & Erun).
    { intros theta Hin. apply Hmodel.
      exact (selected_in_pool samples idx selected Hsel theta Hin). }
    exists idx, selected, vals. repeat split; auto.
    assert (Hne : vals <> []).
    { intros ->. apply Forall2_length in Hvals. apply Forall2_length in Hsel.
      simpl in Hvals. lia. }
    unfold propagate. unfold bind at 1, lift at 1. rewrite Eidx.
    unfold bind at 1, lift at 1. rewrite Esel.
    unfold bind at 1. rewrite Erun.
    destruct vals as [|v vals]; [contradiction|].
    unfold bind, lift, percentile_of, print, ret; simpl.
    now rewrite <- app_assoc.
  - intros Hgt. unfold propagate. unfold bind at 1, lift at 1.
    now rewrite (Hover Hgt).
  - intros ->.
    destruct (Hfit (Nat.le_0_l _)) as (idx & Eidx & Hlen & _ & _).
    apply length_zero_iff_nil in Hlen. subst idx.
    now apply propagate_nothing_drawn.
Qed.

Lemma propagate_draws_and_reports_witness :
  exists idx selected nrmse_values,
    NoDup idx /\ length idx = 2%nat /\
    Forall (fun i => (i < length small_pool)%nat) idx /\
    Forall2 (fun i theta => nth_error small_pool i = Some theta)
            idx selected /\
    Forall2 (fun theta v => sum_model theta = Ok v) selected nrmse_values /\
    propagate (stub_globals sum_model) 2 small_pool empty_world
    = (Ok (np_mean nrmse_values,
           percentile_linear nrmse_values (25 / 10),
           percentile_linear nrmse_values (975 / 10)),
       {| predict_calls := [] ++ selected;
          output := []
                    ++ [PrintMeanNrmse (np_mean nrmse_values);
                        PrintRange
                          (percentile_linear nrmse_values (25 / 10))
                          (percentile_linear nrmse_values (975 / 10))] |}).
Proof.
  apply (proj1 (propagate_draws_and_reports (stub_globals sum_model) 2
                  small_pool empty_world
                  first_indices_without_replacement)).
  - lia.
  - simpl. lia.
  - intros theta _. exists (fsum theta). reflexivity.
Defined.

(* ================================================================== *)
(** * Further properties of the notebook's functions *)

(** ** Prior and posterior *)

Lemma between_0_1_finite t :
  fge t (Fin 0) = true -> fle t (Fin 1) = true ->
  exists x, t = Fin x /\ 0 <= x <= 1.
Proof.
  unfold fge. destruct t as [x | | |]; simpl; intros H0 H1;
    try discriminate.
  exists x. split; [reflexivity|].
  apply Rleb_true in H0. apply Rleb_true in H1. lra.
Qed.

Lemma lnprior_zero_in_bounds theta : lnprior theta = Fin 0 -> in_bounds theta.
Proof.
  unfold lnprior.
  destruct (forallb (fun t => fge t (Fin 0)) theta) eqn:E0;
    [|discriminate].
  destruct (forallb (fun t => fle t (Fin 1)) theta) eqn:E1;
    [|discriminate].
  intros _. apply Forall_forall. intros t Ht.
  rewrite forallb_forall in E0, E1.
  apply between_0_1_finite; auto.
Qed.

Lemma lnprior_not_in_bounds theta : ~ in_bounds theta -> lnprior theta = NegInf.
Proof.
  intros H. destruct (lnprior_cases theta) as [E | E]; [|exact E].
  elim H. now apply lnprior_zero_in_bounds.
Qed.

(** [lnprior] is 0.0 exactly on the vectors whose components are all
    finite numbers of [[0, 1]], and [-inf] on every other vector (a
    component that is [nan] or infinite included). *)
Theorem lnprior_characterised :
  forall theta : vector,
    (lnprior theta = Fin 0 <-> in_bounds theta) /\
    (lnprior theta = NegInf <-> ~ in_bounds theta).
Proof.
  intros theta. split; split.
  - apply lnprior_zero_in_bounds.
  - apply lnprior_in_bounds.
  - intros E Hin. rewrite (lnprior_in_bounds _ Hin) in E. discriminate E.
  - apply lnprior_not_in_bounds.
Qed.

(** The surrogate is invoked exactly when the candidate is in bounds: then
    once, on the candidate itself, whatever it returns or raises; on any
    other candidate (out of range, [nan] or infinite component) [lnprob]
    returns [-inf] and leaves the world untouched.  [lnprob] never
    prints. *)
Theorem lnprob_calls_iff_in_bounds :
  forall (G : globals) (theta : vector) (w : world),
    (in_bounds theta ->
       predict_calls (snd (lnprob G theta w)) = predict_calls w ++ [theta] /\
       invocations (lnprob G theta) w = 1%nat) /\
    (~ in_bounds theta -> lnprob G theta w = (Ok NegInf, w)) /\
    output (snd (lnprob G theta w)) = output w.
Proof.
  intros G theta w. split; [|split].
  - intros Hin. unfold invocations.
    rewrite (lnprob_in_bounds_run G theta w Hin); simpl.
    split; [reflexivity|]. rewrite length_app; simpl. lia.
  - intros Hout. unfold lnprob.
    rewrite (lnprior_not_in_bounds _ Hout). reflexivity.
  - unfold lnprob. destruct (lnprior_cases theta) as [-> | ->]; simpl.
    + unfold bind, lnlike, bind, predict, ret.
      destruct (gpr_model G theta); reflexivity.
    + reflexivity.
Qed.

Lemma lnprob_calls_iff_in_bounds_witness :
  lnprob (stub_globals sum_model) [half; NaN] empty_world
  = (Ok NegInf, empty_world).
Proof.
  apply (lnprob_calls_iff_in_bounds (stub_globals sum_model) [half; NaN]
           empty_world).
  intros H. inversion H as [|? ? _ H2]; subst.
  inversion H2 as [|? ? (x & E & _) _]; subst. discriminate E.
Defined.

Lemma likelihood_never_positive y :
  let r := fmul (Fin (- (1 / 2))) (fpow2 y) in
  r = NaN \/ fle r (Fin 0) = true.
Proof.
  assert (Hneg : inf_signed (- (1 / 2)) = NegInf)
    by (apply inf_signed_neg; lra).
  destruct y as [x | | |]; simpl.
  - right. apply Rleb_true. nra.
  - right. unfold fmul. now rewrite Hneg.
  - right. unfold fmul. now rewrite Hneg.
  - left. reflexivity.
Qed.

(** Whatever the surrogate returns and whatever the target and tolerance
    are, a value returned by [lnprob] is [nan] or at most 0: it is never a
    positive number and never [+inf]. *)
Theorem lnprob_never_positive :
  forall (G : globals) (theta : vector) (w : world) (v : float64),
    fst (lnprob G theta w) = Ok v ->
    v = NaN \/ fle v (Fin 0) = true.
Proof.
  intros G theta w v. unfold lnprob.
  destruct (lnprior_cases theta) as [-> | ->]; simpl.
  - unfold bind, lnlike, bind, predict, ret.
    destruct (gpr_model G theta) as [p | e]; [|discriminate].
    rewrite fadd_0_l. intros E; injection E as <-.
    apply likelihood_never_positive.
  - intros E; injection E as <-. right. reflexivity.
Qed.

Lemma lnprob_never_positive_witness :
  Fin (- 450) = NaN \/ fle (Fin (- 450)) (Fin 0) = true.
Proof.
  apply (lnprob_never_positive (stub_globals sum_model) [half; half]
           empty_world (Fin (- 450))).
  now rewrite lnprob_half_half.
Defined.

(** A zero tolerance raises nothing: the log-posterior of an in-bounds
    candidate with a finite prediction is [nan] when the prediction equals
    the target and [-inf] otherwise. *)
Theorem lnprob_zero_tolerance :
  forall (G : globals) (theta : vector) (w : world) (p t : R),
    in_bounds theta ->
    gpr_model G theta = Ok (Fin p) ->
    desired_nrmse G = Fin t ->
    desired_std G = Fin 0 ->
    fst (lnprob G theta w) = Ok (if Reqb p t then NaN else NegInf).
Proof.
  intros G theta w p t Hin Hp Ht Hs.
  rewrite (lnprob_in_bounds_run G theta w Hin), Hp, Ht, Hs.
  cbn [fst fsub fneg fadd]. rewrite fdiv_Fin_0.
  assert (Hneg : inf_signed (- (1 / 2)) = NegInf)
    by (apply inf_signed_neg; lra).
  destruct (Reqb p t) eqn:E.
  - apply Reqb_true in E. subst p.
    replace (t + - t) with 0 by ring. now rewrite inf_signed_zero.
  - apply Reqb_false in E.
    destruct (Rtotal_order (p + - t) 0) as [Hlt | [Heq | Hgt]].
    + rewrite inf_signed_neg by exact Hlt. simpl. unfold fmul.
      now rewrite Hneg.
    + elim E. lra.
    + rewrite inf_signed_pos by exact Hgt. simpl. unfold fmul.
      now rewrite Hneg.
Qed.

Lemma lnprob_zero_tolerance_witness :
  fst (lnprob zero_tolerance_globals [half; half] empty_world)
  = Ok (if Reqb 1 (4 / 10) then NaN else NegInf).
Proof.
  apply (lnprob_zero_tolerance zero_tolerance_globals [half; half]
           empty_world 1 (4 / 10) (half_in_bounds 2)).
  - unfold zero_tolerance_globals, sum_model, fsum, half; simpl.
    do 2 f_equal. lra.
  - reflexivity.
  - reflexivity.
Defined.

(** ** The diagnostic: shapes on which it is not defined *)

(** [gelman_rubin] raises only on an array without steps, and then
    ZeroDivisionError; on every other array, whatever the number of chains
    and of parameters, it returns one value per parameter. *)
Theorem gelman_rubin_raises_iff_no_steps :
  forall chains : ndarray3,
    (forall e, gelman_rubin chains = Raise e ->
               e = ZeroDivisionError /\ n_steps chains = 0%nat) /\
    (n_steps chains = 0%nat -> gelman_rubin chains = Raise ZeroDivisionError) /\
    (n_steps chains <> 0%nat ->
     exists R_hat_values,
       gelman_rubin chains = Ok R_hat_values /\
       length R_hat_values = n_parameters chains).
Proof.
  intros chains. unfold gelman_rubin.
  destruct (Nat.eqb_spec (n_steps chains) 0) as [E | E].
  - split; [|split].
    + intros e H. injection H as <-. auto.
    + reflexivity.
    + intros H. contradiction.
  - split; [|split].
    + intros e H. discriminate H.
    + intros H. contradiction.
    + intros _. eexists. split; [reflexivity|].
      now rewrite length_map, length_seq.
Qed.

Lemma fold_fadd_NaN l : fold_left fadd l NaN = NaN.
Proof. induction l as [|v l IH]; simpl; auto. Qed.

Lemma fadd_NaN_r a : fadd a NaN = NaN.
Proof. now destruct a. Qed.

Lemma fmul_NaN_r a : fmul a NaN = NaN.
Proof. now destruct a. Qed.

Lemma fdiv_NaN_r a : fdiv a NaN = NaN.
Proof. now destruct a. Qed.

Lemma np_mean_all_NaN {A} (l : list A) : np_mean (map (fun _ => NaN) l) = NaN.
Proof.
  unfold np_mean, fsum. destruct l as [|v l]; simpl.
  - unfold of_int. rewrite fdiv_Fin_0. apply inf_signed_zero.
  - now rewrite fold_fadd_NaN.
Qed.

Lemma np_var_ddof1_single v : np_var_ddof1 [Fin v] = NaN.
Proof.
  unfold np_var_ddof1, np_mean, fsum, of_int; simpl.
  rewrite fdiv_Fin by lra. simpl.
  rewrite fdiv_Fin_0.
  match goal with |- inf_signed ?t = _ => replace t with 0 by field end.
  apply inf_signed_zero.
Qed.

Lemma map_const_repeat {A B} (b : B) (l : list A) :
  map (fun _ => b) l = repeat b (length l).
Proof. induction l as [|v l IH]; simpl; [reflexivity | now rewrite IH]. Qed.

Lemma R_hat_of_NaN_W chains p :
  W chains p = NaN ->
  fsqrt (fdiv (var_hat_plus chains p) (W chains p)) = NaN.
Proof. intros ->. now rewrite fdiv_NaN_r. Qed.

Lemma R_hat_of_NaN_B chains p :
  B_over_n chains p = NaN ->
  fsqrt (fdiv (var_hat_plus chains p) (W chains p)) = NaN.
Proof.
  intros H. unfold var_hat_plus. rewrite H, fadd_NaN_r. reflexivity.
Qed.

Lemma W_single_step m d x p : W (ndarray_of_reals m 1 d x) p = NaN.
Proof.
  unfold W, steps_of; simpl.
  rewrite (map_ext _ (fun _ => NaN)) by (intros c; apply np_var_ddof1_single).
  apply np_mean_all_NaN.
Qed.

Lemma B_over_n_single_chain n d x p :
  (1 <= n)%nat -> B_over_n (ndarray_of_reals 1 n d x) p = NaN.
Proof.
  intros Hn. unfold B_over_n. simpl n_chains. simpl seq. simpl map.
  rewrite chain_means_exact, overall_mean_exact by lia.
  unfold fsum, of_int; simpl. rewrite fdiv_Fin_0.
  assert (E : Spec.overall_mean 1 n (fun c s => x c s p)
              = Spec.chain_means n (fun c s => x c s p) 0).
  { unfold Spec.overall_mean, sum_below, Rsum; simpl. field. }
  rewrite E.
  match goal with |- inf_signed ?t = _ => replace t with 0 by ring end.
  apply inf_signed_zero.
Qed.

Lemma gelman_rubin_all_NaN m n d x :
  n <> 0%nat ->
  (forall p, fsqrt (fdiv (var_hat_plus (ndarray_of_reals m n d x) p)
                         (W (ndarray_of_reals m n d x) p)) = NaN) ->
  gelman_rubin (ndarray_of_reals m n d x) = Ok (repeat NaN d).
Proof.
  intros Hn H. unfold gelman_rubin. simpl n_steps.
  destruct (Nat.eqb_spec n 0) as [E | _]; [contradiction|].
  f_equal. simpl n_parameters.
  transitivity (map (fun _ : nat => NaN) (seq 0 d));
    [|now rewrite map_const_repeat, length_seq].
  apply map_ext. exact H.
Qed.

(** With a single step per chain, or with a single chain, [gelman_rubin]
    raises nothing and returns [nan] for every parameter: the sample
    variance of one step, respectively the between-chain variance of one
    chain, is [0/0]. *)
Theorem gelman_rubin_degenerate_shape :
  forall (m n d : nat) (x : nat -> nat -> nat -> R),
    n = 1%nat \/ (m = 1%nat /\ (1 <= n)%nat) ->
    gelman_rubin (ndarray_of_reals m n d x) = Ok (repeat NaN d).
Proof.
  intros m n d x [-> | [-> Hn]].
  - apply gelman_rubin_all_NaN; [lia|]. intros p.
    apply R_hat_of_NaN_W, W_single_step.
  - apply gelman_rubin_all_NaN; [lia|]. intros p.
    apply R_hat_of_NaN_B, B_over_n_single_chain, Hn.
Qed.

Lemma gelman_rubin_degenerate_shape_witness :
  gelman_rubin (ndarray_of_reals 3 1 2 (fun c s p => INR c))
  = Ok (repeat NaN 2).
Proof.
  apply (gelman_rubin_degenerate_shape 3 1 2 (fun c s p => INR c)).
  left. reflexivity.
Defined.

(** ** The check loop and the run around it *)




(** When the chain has no more steps than the burn-in count, the run
    stops with ZeroDivisionError, raised by [gelman_rubin] on the empty
    slice, before anything is printed or predicted. *)
Theorem after_sampling_no_steps :
  forall (G : globals) (nsteps n_samples : nat) (chain : ndarray3)
         (w : world),
    (n_steps chain <= burnin nsteps)%nat ->
    after_sampling G nsteps n_samples chain w = (Raise ZeroDivisionError, w).
Proof.
  intros G nsteps n_samples chain w H.
  unfold after_sampling. unfold bind at 1, lift at 1.
  unfold gelman_rubin, chains_burned, slice_steps; simpl n_steps.
  replace (n_steps chain - burnin nsteps)%nat with 0%nat by lia.
  reflexivity.
Qed.

Lemma after_sampling_no_steps_witness :
  after_sampling (stub_globals sum_model) 0 2
    (ndarray_of_reals 2 0 1 (fun c s p => 0)) empty_world
  = (Raise ZeroDivisionError, empty_world).
Proof.
  apply (after_sampling_no_steps (stub_globals sum_model) 0 2
           (ndarray_of_reals 2 0 1 (fun c s p => 0)) empty_world).
  simpl. lia.
Defined.

(** For a run of at least one step the trimmed chain is never empty:
    [gelman_rubin] on it raises nothing and returns one value per
    parameter. *)
Theorem diagnostic_after_burn_in_defined :
  forall (nsteps : nat) (chain : ndarray3),
    (1 <= nsteps)%nat ->
    n_steps chain = nsteps ->
    (1 <= n_steps (chains_burned nsteps chain))%nat /\
    (burnin nsteps <= n_steps (chains_burned nsteps chain))%nat /\
    exists R_hat_values,
      gelman_rubin (chains_burned nsteps chain) = Ok R_hat_values /\
      length R_hat_values = n_parameters chain.
Proof.
  intros nsteps chain Hpos Hn.
  assert (Hhalf : (2 * burnin nsteps <= nsteps)%nat).
  { unfold burnin. pose proof (Nat.div_mod_eq nsteps 2). lia. }
  assert (Hlt : (burnin nsteps < nsteps)%nat).
  { unfold burnin. apply Nat.div_lt; lia. }
  assert (Hsteps : n_steps (chains_burned nsteps chain)
                   = (nsteps - burnin nsteps)%nat).
  { unfold chains_burned, slice_steps; simpl. now rewrite Hn. }
  rewrite Hsteps. split; [lia|]. split; [lia|].
  unfold gelman_rubin. rewrite Hsteps.
  destruct (Nat.eqb_spec (nsteps - burnin nsteps) 0) as [E | _]; [lia|].
  eexists. split; [reflexivity|].
  now rewrite length_map, length_seq.
Qed.

Lemma diagnostic_after_burn_in_defined_witness :
  (1 <= n_steps (chains_burned 4 drifting_chain))%nat /\
  (burnin 4 <= n_steps (chains_burned 4 drifting_chain))%nat /\
  exists R_hat_values,
    gelman_rubin (chains_burned 4 drifting_chain) = Ok R_hat_values /\
    length R_hat_values = n_parameters drifting_chain.
Proof.
  apply (diagnostic_after_burn_in_defined 4 drifting_chain);
    [lia | reflexivity].
Defined.

Lemma Forall_repeat {A} (P : A -> Prop) (a : A) (k : nat) :
  P a -> Forall P (repeat a k).
Proof. intros H. induction k; simpl; auto. Qed.

(** A run of one or two steps leaves a single step after burn-in: every
    [R_hat] is [nan], and the check loop lets the run continue. *)
Theorem short_run_passes_check :
  forall (m d nsteps : nat) (x : nat -> nat -> nat -> R) (w : world),
    nsteps = 1%nat \/ nsteps = 2%nat ->
    gelman_rubin (chains_burned nsteps (ndarray_of_reals m nsteps d x))
    = Ok (repeat NaN d) /\
    fst (check_R_hat 0 (repeat NaN d) w) = Ok tt.
Proof.
  intros m d nsteps x w H. split.
  - destruct H as [-> | ->].
    + change (chains_burned 1 (ndarray_of_reals m 1 d x))
        with (ndarray_of_reals m 1 d (fun c s p => x c (0 + s)%nat p)).
      apply gelman_rubin_all_NaN; [lia|]. intros p.
      apply R_hat_of_NaN_W, W_single_step.
    + change (chains_burned 2 (ndarray_of_reals m 2 d x))
        with (ndarray_of_reals m 1 d (fun c s p => x c (1 + s)%nat p)).
      apply gelman_rubin_all_NaN; [lia|]. intros p.
      apply R_hat_of_NaN_W, W_single_step.
  - rewrite (check_R_hat_passes (repeat NaN d) 0 w); [reflexivity|].
    now apply Forall_repeat.
Qed.

Lemma short_run_passes_check_witness :
  gelman_rubin (chains_burned 2 (ndarray_of_reals 2 2 1 (fun c s p => INR s)))
  = Ok (repeat NaN 1) /\
  fst (check_R_hat 0 (repeat NaN 1) empty_world) = Ok tt.
Proof.
  apply (short_run_passes_check 2 1 2 (fun c s p => INR s) empty_world).
  now right.
Defined.

(** ** The pool of draws *)

Lemma chunks_concat {A} (k : nat) (rows : list (list A)) : forall fuel,
  (0 < k)%nat ->
  Forall (fun r => length r = k) rows ->
  (length rows <= fuel)%nat ->
  chunks fuel k (concat rows) = rows.
Proof.
  induction rows as [|r rows IH]; intros fuel Hk Hrows Hfuel.
  - destruct fuel; reflexivity.
  - inversion Hrows as [|? ? Hr Hrest]; subst.
    destruct fuel as [|fuel]; [simpl in Hfuel; lia|].
    cbn [concat chunks].
    destruct (r ++ concat rows) eqn:E.
    + apply (f_equal (@length A)) in E. rewrite length_app in E.
      simpl in E. lia.
    + rewrite <- E.
      rewrite firstn_app, Nat.sub_diag, firstn_all; simpl firstn.
      rewrite app_nil_r.
      rewrite skipn_app, Nat.sub_diag, skipn_all; simpl.
      f_equal. apply IH; auto. simpl in Hfuel. lia.
Qed.

Lemma concat_flat_map {A B} (f : A -> list (list B)) (l : list A) :
  concat (flat_map f l) = flat_map (fun a => concat (f a)) l.
Proof.
  induction l as [|a l IH]; simpl; [reflexivity|].
  now rewrite concat_app, IH.
Qed.

Lemma ravel_positions chains : ravel chains = concat (positions chains).
Proof.
  unfold ravel, positions. rewrite concat_flat_map.
  apply flat_map_ext. intros c. now rewrite flat_map_concat_map.
Qed.

Lemma length_positions chains :
  length (positions chains) = (n_chains chains * n_steps chains)%nat.
Proof.
  unfold positions. apply length_flat_map_seq.
  intros c. now rewrite length_map, length_seq.
Qed.

Lemma positions_rows chains :
  Forall (fun r => length r = n_parameters chains) (positions chains).
Proof.
  apply Forall_forall. intros r Hr. unfold positions in Hr.
  apply in_flat_map in Hr. destruct Hr as (c & _ & Hr).
  apply in_map_iff in Hr. destruct Hr as (s & <- & _).
  now rewrite length_map, length_seq.
Qed.

Lemma length_concat_rows {A} (k : nat) (rows : list (list A)) :
  Forall (fun r => length r = k) rows ->
  length (concat rows) = (length rows * k)%nat.
Proof.
  induction 1 as [|r rows Hr _ IH]; simpl; [reflexivity|].
  rewrite length_app, IH, Hr. reflexivity.
Qed.

Lemma length_ravel chains :
  length (ravel chains)
  = (n_chains chains * n_steps chains * n_parameters chains)%nat.
Proof.
  rewrite ravel_positions.
  rewrite (length_concat_rows _ _ (positions_rows chains)).
  now rewrite length_positions.
Qed.

Lemma reshape_rows_own_width k chains :
  (0 < k)%nat -> n_parameters chains = k ->
  reshape_rows k chains = Ok (positions chains).
Proof.
  intros Hk Hd. unfold reshape_rows. rewrite length_ravel, Hd.
  rewrite Nat.Div0.mod_mul. simpl.
  f_equal. rewrite ravel_positions. apply chunks_concat.
  - exact Hk.
  - rewrite <- Hd. apply positions_rows.
  - rewrite length_positions. nia.
Qed.

(** Reshaping to rows of as many items as the array has parameters (the
    notebook's 5) yields the walker positions, chain by chain and step by
    step: [n_chains * n_steps] rows of [n_parameters] items. *)
Theorem reshape_rows_positions :
  forall (k : nat) (chains : ndarray3),
    (0 < k)%nat ->
    n_parameters chains = k ->
    reshape_rows k chains = Ok (positions chains) /\
    length (positions chains) = (n_chains chains * n_steps chains)%nat /\
    Forall (fun row => length row = k) (positions chains).
Proof.
  intros k chains Hk Hd. split; [|split].
  - now apply reshape_rows_own_width.
  - apply length_positions.
  - rewrite <- Hd. apply positions_rows.
Qed.

Lemma reshape_rows_positions_witness :
  reshape_rows 5 (ndarray_of_reals 2 3 5 (fun c s p => INR p))
  = Ok (positions (ndarray_of_reals 2 3 5 (fun c s p => INR p))) /\
  length (positions (ndarray_of_reals 2 3 5 (fun c s p => INR p)))
  = (2 * 3)%nat /\
  Forall (fun row => length row = 5%nat)
         (positions (ndarray_of_reals 2 3 5 (fun c s p => INR p))).
Proof.
  apply (reshape_rows_positions 5
           (ndarray_of_reals 2 3 5 (fun c s p => INR p)));
    [lia | reflexivity].
Defined.





(** ** A surrogate failure during propagation *)

Lemma predict_each_stops G pre : forall vals bad post e w,
  Forall2 (fun theta v => gpr_model G theta = Ok v) pre vals ->
  gpr_model G bad = Raise e ->
  predict_each G (pre ++ bad :: post) w
  = (Raise e, {| predict_calls := predict_calls w ++ pre ++ [bad];
                 output := output w |}).
Proof.
  induction pre as [|theta pre IH]; intros vals bad post e w Hpre Hbad.
  - cbn [app predict_each]. unfold bind at 1, predict at 1.
    now rewrite Hbad.
  - inversion Hpre as [|? v ? vals' Hv Hrest]; subst.
    cbn [app predict_each]. unfold bind at 1, predict at 1. rewrite Hv.
    unfold bind at 1. rewrite (IH vals' bad post e _ Hrest Hbad); simpl.
    now rewrite <- app_assoc.
Qed.

(** When the surrogate raises on one of the drawn rows, the propagation
    stops there: the exception leaves [propagate], the surrogate has been
    invoked on the rows up to and including the failing one and on no
    later row, and nothing is printed. *)
Theorem propagate_stops_at_failure :
  forall (G : globals) (n_samples : nat) (samples : list vector) (w : world)
         (idx : list nat) (pre post : list vector) (bad : vector)
         (vals : list float64) (e : exn),
    np_random_choice G (length samples) n_samples false = Ok idx ->
    take_rows samples idx = Ok (pre ++ bad :: post) ->
    Forall2 (fun theta v => gpr_model G theta = Ok v) pre vals ->
    gpr_model G bad = Raise e ->
    propagate G n_samples samples w
    = (Raise e, {| predict_calls := predict_calls w ++ pre ++ [bad];
                   output := output w |}).
Proof.
  intros G n_samples samples w idx pre post bad vals e Hidx Hsel Hpre Hbad.
  unfold propagate. unfold bind at 1, lift at 1. rewrite Hidx.
  unfold bind at 1, lift at 1. rewrite Hsel.
  unfold bind at 1.
  now rewrite (predict_each_stops G pre vals bad post e w Hpre Hbad).
Qed.

Lemma propagate_stops_at_failure_witness :
  propagate (stub_globals one_feature_model) 3 mixed_pool empty_world
  = (Raise (PredictorError 1),
     {| predict_calls := predict_calls empty_world
                         ++ [[half]] ++ [[half; half]];
        output := output empty_world |}).
Proof.
  apply (propagate_stops_at_failure (stub_globals one_feature_model) 3
           mixed_pool empty_world [0; 1; 2]%nat [[half]] [[Fin 1]]
           [half; half] [fsum [half]] (PredictorError 1)).
  - reflexivity.
  - reflexivity.
  - constructor; [reflexivity | constructor].
  - reflexivity.
Defined.

(** ** Indexing the pool, and the run past the check *)

(** [samples[idx]] raises IndexError exactly when some index is not below
    the pool size, and nothing else; otherwise it returns one row per
    index, the row at that index, in the order of the indices (an index
    that occurs twice gives its row twice). *)
Theorem take_rows_spec :
  forall (samples : list vector) (idx : list nat),
    (take_rows samples idx = Raise IndexError <->
     Exists (fun i => (length samples <= i)%nat) idx) /\
    (forall e, take_rows samples idx = Raise e -> e = IndexError) /\
    (forall rows, take_rows samples idx = Ok rows ->
       Forall2 (fun i row => nth_error samples i = Some row) idx rows).
Proof.
  intros samples idx. induction idx as [|i idx (IH1 & IH2 & IH3)].
  - split; [|split].
    + split; [discriminate | intros H; inversion H].
    + discriminate.
    + intros rows H. injection H as <-. constructor.
  - cbn [take_rows].
    destruct (nth_error samples i) as [row|] eqn:Erow.
    + assert (Hi : (i < length samples)%nat)
        by (apply nth_error_Some; congruence).
      destruct (take_rows samples idx) as [rows | e].
      * split; [|split].
        -- split; [discriminate|]. intros H.
           inversion H as [? ? Hbad | ? ? Hbad]; subst; [lia|].
           apply IH1 in Hbad. discriminate Hbad.
        -- discriminate.
        -- intros rows' H. injection H as <-. constructor; auto.
      * pose proof (IH2 e eq_refl) as ->. split; [|split].
        -- split; auto. intros _. apply Exists_cons_tl. now apply IH1.
        -- intros e H. now injection H.
        -- discriminate.
    + apply nth_error_None in Erow. split; [|split].
      * split; [|reflexivity]. intros _. now apply Exists_cons_hd.
      * intros e H. now injection H.
      * discriminate.
Qed.








(* ================================================================== *)
(** * The diagnostic in binary64 arithmetic *)

(** ** Signs of rounded results *)

Lemma round_aux_signed s m e l :
  IEEE.signed s (binary_round_aux IEEE.prec IEEE.emax s m e l) = true.
Proof.
  unfold binary_round_aux.
  destruct (shr_fexp IEEE.prec IEEE.emax m e l) as [mrs1 e1].
  destruct (shr_fexp IEEE.prec IEEE.emax _ e1 loc_Exact) as [mrs2 e2].
  destruct (shr_m mrs2); [| destruct (Z.leb _ _) |]; simpl;
    try apply eqb_reflx; reflexivity.
Qed.

Lemma round_signed s m e :
  IEEE.signed s (binary_round IEEE.prec IEEE.emax s m e) = true.
Proof.
  unfold binary_round. destruct (shl_align _ _ _) as [mz ez].
  apply round_aux_signed.
Qed.

Lemma signed_false_not_negative x :
  IEEE.signed false x = true -> IEEE.not_negative x = true.
Proof. destruct x as [s | s | | s m e]; simpl; try reflexivity; now destruct s. Qed.

Lemma of_int_not_negative z :
  (0 <= z)%Z -> IEEE.not_negative (IEEE.of_int z) = true.
Proof.
  intros Hz. unfold IEEE.of_int, binary_normalize.
  destruct z as [| q | q]; [reflexivity | | lia].
  apply signed_false_not_negative, round_signed.
Qed.







(** ** The overall mean *)

(** On two chains of three steps at 0.1 the code returns 2.449..., the
    formula with the mean of the chain means 0.816...: the sum of the six
    samples divided by 6 is not the mean of the two chain means. *)
Lemma gelman_rubin_overall_mean_counterexample :
  IEEE.gelman_rubin IEEE.seq_sum IEEE.tenth_chains
  <> IEEE.gelman_rubin_as_specified IEEE.seq_sum IEEE.tenth_chains.
Proof. intros H. vm_compute in H. discriminate H. Qed.

(** C3, as the code has it.  On [n_chains >= 2] chains of [n_steps >= 2]
    steps, [gelman_rubin] returns for every dimension
    [sqrt((((n_steps - 1) / n_steps) * W + B/n) / W)], where the chain
    means are the means over steps, the overall mean is the mean of all
    samples of all chains and steps together, [B/n] is the sum over chains
    of the squared differences between chain mean and overall mean divided
    by [n_chains - 1], and [W] is the mean over chains of the sample
    variances with denominator [n_steps - 1]. *)
Theorem gelman_rubin_formula :
  forall (np_sum : list spec_float -> spec_float) (chains : IEEE.ndarray3),
    (2 <= IEEE.n_chains chains)%nat ->
    (2 <= IEEE.n_steps chains)%nat ->
    IEEE.gelman_rubin np_sum chains
    = Ok (map
            (fun p =>
               let m := IEEE.n_chains chains in
               let n := IEEE.n_steps chains in
               let mean l :=
                 IEEE.div (np_sum l) (IEEE.of_int (Z.of_nat (length l))) in
               let chain_mean c := mean (IEEE.steps_of chains c p) in
               let overall := mean (IEEE.all_steps_of chains p) in
               let B :=
                 IEEE.div
                   (np_sum (map (fun c => IEEE.pow2
                                            (IEEE.sub (chain_mean c) overall))
                                (seq 0 m)))
                   (IEEE.of_int (Z.of_nat m - 1)) in
               let variance c :=
                 IEEE.div
                   (np_sum (map (fun v => IEEE.pow2
                                            (IEEE.sub v (chain_mean c)))
                                (IEEE.steps_of chains c p)))
                   (IEEE.of_int (Z.of_nat n - 1)) in
               let W := mean (map variance (seq 0 m)) in
               let ratio :=
                 IEEE.div (IEEE.of_int (Z.of_nat n - 1))
                          (IEEE.of_int (Z.of_nat n)) in
               IEEE.sqrt (IEEE.div (IEEE.add (IEEE.mul ratio W) B) W))
            (seq 0 (IEEE.n_parameters chains))).
Proof.
  intros np_sum chains Hm Hn. unfold IEEE.gelman_rubin.
  destruct (Nat.eqb_spec (IEEE.n_steps chains) 0) as [E | _]; [lia|].
  f_equal. apply map_ext. intros p. cbv zeta.
  unfold IEEE.R_hat_of, IEEE.step_ratio, IEEE.B_over_n, IEEE.between,
    IEEE.W, IEEE.overall_mean, IEEE.chain_means, IEEE.np_mean.
  assert (Hvar : forall c,
            IEEE.np_var_ddof1 np_sum (IEEE.steps_of chains c p)
            = IEEE.div
                (np_sum (map (fun v =>
                                IEEE.pow2
                                  (IEEE.sub v
                                     (IEEE.div
                                        (np_sum (IEEE.steps_of chains c p))
                                        (IEEE.of_int
                                           (Z.of_nat
                                              (length
                                                 (IEEE.steps_of chains c p)))))))
                             (IEEE.steps_of chains c p)))
                (IEEE.of_int (Z.of_nat (IEEE.n_steps chains) - 1))).
  { intros c. unfold IEEE.np_var_ddof1, IEEE.np_mean.
    assert (Hlen : length (IEEE.steps_of chains c p) = IEEE.n_steps chains)
      by (unfold IEEE.steps_of; now rewrite length_map, length_seq).
    f_equal. f_equal. rewrite Hlen. lia. }
  rewrite (map_ext _ _ Hvar). reflexivity.
Qed.

Lemma gelman_rubin_formula_witness :
  IEEE.gelman_rubin IEEE.seq_sum IEEE.tenth_chains
  = Ok (map
          (fun p =>
             let m := IEEE.n_chains IEEE.tenth_chains in
             let n := IEEE.n_steps IEEE.tenth_chains in
             let mean l :=
               IEEE.div (IEEE.seq_sum l)
                        (IEEE.of_int (Z.of_nat (length l))) in
             let chain_mean c := mean (IEEE.steps_of IEEE.tenth_chains c p) in
             let overall := mean (IEEE.all_steps_of IEEE.tenth_chains p) in
             let B :=
               IEEE.div
                 (IEEE.seq_sum
                    (map (fun c => IEEE.pow2
                                     (IEEE.sub (chain_mean c) overall))
                         (seq 0 m)))
                 (IEEE.of_int (Z.of_nat m - 1)) in
             let variance c :=
               IEEE.div
                 (IEEE.seq_sum
                    (map (fun v => IEEE.pow2 (IEEE.sub v (chain_mean c)))
                         (IEEE.steps_of IEEE.tenth_chains c p)))
                 (IEEE.of_int (Z.of_nat n - 1)) in
             let W := mean (map variance (seq 0 m)) in
             let ratio :=
               IEEE.div (IEEE.of_int (Z.of_nat n - 1))
                        (IEEE.of_int (Z.of_nat n)) in
             IEEE.sqrt (IEEE.div (IEEE.add (IEEE.mul ratio W) B) W))
          (seq 0 (IEEE.n_parameters IEEE.tenth_chains))).
Proof.
  apply (gelman_rubin_formula IEEE.seq_sum IEEE.tenth_chains);
    simpl; lia.
Defined.

(** ** A zero within-chain variance *)

(** Two chains frozen at 0.5: [W] is 0.0, and [gelman_rubin] returns
    [nan] without raising. *)
Lemma gelman_rubin_W_zero_counterexample :
  ~ IEEE.signals_error_when_W_zero IEEE.seq_sum IEEE.half_chains.
Proof.
  intros H. destruct H as [e He].
  - exists 0%nat. split; [simpl; lia | vm_compute; reflexivity].
  - vm_compute in He. discriminate He.
Qed.

Lemma R_hat_of_zero_W ratio sw b :
  (IEEE.R_hat_of ratio (S754_zero sw) b = S754_nan \/
   IEEE.R_hat_of ratio (S754_zero sw) b = S754_infinity false) /\
  (IEEE.is_zero b = true ->
   IEEE.R_hat_of ratio (S754_zero sw) b = S754_nan) /\
  (sw = false -> IEEE.is_finite ratio = true -> IEEE.is_positive b = true ->
   IEEE.R_hat_of ratio (S754_zero sw) b = S754_infinity false).
Proof.
  unfold IEEE.R_hat_of, IEEE.sqrt, IEEE.div, IEEE.add, IEEE.mul.
  destruct ratio as [[|] | [|] | | [|] mr er], b as [[|] | [|] | | [|] mb eb],
    sw; simpl; repeat split; auto; intros; try discriminate.
Qed.

(** C4, as the code has it.  When the within-chain variance [W] of a
    dimension is zero, [gelman_rubin] raises nothing and the value it
    returns for that dimension is not a finite number: it is [nan] or
    [+inf]; [nan] when [B/n] is zero, and [+inf] when [B/n] is positive
    ([W] being [+0.0] and the quotient [(n_steps - 1) / n_steps]
    finite). *)
Theorem gelman_rubin_W_zero_not_finite :
  forall (np_sum : list spec_float -> spec_float) (chains : IEEE.ndarray3)
         (p : nat),
    (1 <= IEEE.n_steps chains)%nat ->
    (p < IEEE.n_parameters chains)%nat ->
    IEEE.is_zero (IEEE.W np_sum chains p) = true ->
    exists R_hat_values r,
      IEEE.gelman_rubin np_sum chains = Ok R_hat_values /\
      nth_error R_hat_values p = Some r /\
      (r = S754_nan \/ r = S754_infinity false) /\
      (IEEE.is_zero (IEEE.B_over_n np_sum chains p) = true ->
       r = S754_nan) /\
      (IEEE.W np_sum chains p = S754_zero false ->
       IEEE.is_finite (IEEE.step_ratio (IEEE.n_steps chains)) = true ->
       IEEE.is_positive (IEEE.B_over_n np_sum chains p) = true ->
       r = S754_infinity false).
Proof.
  intros np_sum chains p Hn Hp HW.
  unfold IEEE.gelman_rubin.
  destruct (Nat.eqb_spec (IEEE.n_steps chains) 0) as [E | _]; [lia|].
  eexists. eexists. split; [reflexivity|].
  split; [now apply nth_error_map_seq|].
  destruct (IEEE.W np_sum chains p) as [sw | | |]; try discriminate HW.
  destruct (R_hat_of_zero_W (IEEE.step_ratio (IEEE.n_steps chains)) sw
              (IEEE.B_over_n np_sum chains p)) as (H1 & H2 & H3).
  split; [exact H1|]. split; [exact H2|].
  intros Hsw. injection Hsw as ->. now apply H3.
Qed.

Lemma gelman_rubin_W_zero_not_finite_witness :
  exists R_hat_values r,
    IEEE.gelman_rubin IEEE.seq_sum IEEE.apart_chains = Ok R_hat_values /\
    nth_error R_hat_values 0 = Some r /\
    (r = S754_nan \/ r = S754_infinity false) /\
    (IEEE.is_zero (IEEE.B_over_n IEEE.seq_sum IEEE.apart_chains 0) = true ->
     r = S754_nan) /\
    (IEEE.W IEEE.seq_sum IEEE.apart_chains 0 = S754_zero false ->
     IEEE.is_finite (IEEE.step_ratio (IEEE.n_steps IEEE.apart_chains)) = true ->
     IEEE.is_positive (IEEE.B_over_n IEEE.seq_sum IEEE.apart_chains 0) = true ->
     r = S754_infinity false).
Proof.
  apply (gelman_rubin_W_zero_not_finite IEEE.seq_sum IEEE.apart_chains 0%nat).
  - simpl. lia.
  - simpl. lia.
  - vm_compute. reflexivity.
Defined.

(** ** The lower bound *)



Section SumKeepsSign.

Variable np_sum : list spec_float -> spec_float.
Hypothesis np_sum_sign :
  forall l, Forall (fun v => IEEE.not_negative v = true) l ->
            IEEE.not_negative (np_sum l) = true.




End SumKeepsSign.


